(** * pet_dashboard: the store, its daily reset, the alert status and the
      pet route, embedded from the JavaScript sources.

    - [Data]   is the date arithmetic behind [Date.prototype.getDate];
    - [Store]  embeds [lib/store] (pets, verificarReset, calcularStatus);
    - [ApiPet] embeds [api/pet/route.js] (GET, POST).

    [api/status/route.js] only runs [verificarReset] and then
    [calcularStatus] on every record; it is not embedded.

    JavaScript values are modelled as the code uses them: counters are
    integers, a property that a record does not have reads [None]
    (undefined), an ISO timestamp written by [toISOString] is kept as the
    instant (milliseconds since the epoch) it denotes, free text is a
    sequence of UTF-16 code units, and [pets] is an object literal whose
    missing keys fall through to Object.prototype.  The wall clock and the
    local time zone are the environment: every [new Date()] consumes the
    next reading of the clock. *)

From Stdlib Require Import ZArith QArith Lia.
From stdpp Require Import gmap strings list fin_maps pretty.

Local Open Scope Z_scope.

(** * The embedding *)

(** ** Dates: the part of ECMAScript's time arithmetic the code relies on *)

Module Data.

Definition msPerDay : Z := 86400000.

(** Day(t): the day number of a time value. *)
Definition Day (t : Z) : Z := t / msPerDay.

(** Civil date of a day number (days since 1970-01-01, proleptic
    Gregorian calendar): year, month (1..12), day of the month. *)
Definition civil (dia : Z) : Z * Z * Z :=
  let z := dia + 719468 in
  let era := z / 146097 in
  let doe := z - era * 146097 in
  let yoe := (doe - doe / 1460 + doe / 36524 - doe / 146096) / 365 in
  let doy := doe - (365 * yoe + yoe / 4 - yoe / 100) in
  let mp := (5 * doy + 2) / 153 in
  let d := doy - (153 * mp + 2) / 5 + 1 in
  let m := if mp <? 10 then mp + 3 else mp - 9 in
  let y := yoe + era * 400 + (if m <=? 2 then 1 else 0) in
  (y, m, d).

(** Days since the epoch of a civil date: the inverse direction, used to
    write instants down readably. *)
Definition diasDe (y m d : Z) : Z :=
  let y' := if m <=? 2 then y - 1 else y in
  let era := y' / 400 in
  let yoe := y' - era * 400 in
  let mp := if m <=? 2 then m + 9 else m - 3 in
  let doy := (153 * mp + 2) / 5 + d - 1 in
  let doe := yoe * 365 + yoe / 4 - yoe / 100 + doy in
  era * 146097 + doe - 719468.

(** The instant y-m-d hh:00 UTC, in milliseconds. *)
Definition utc (y m d hh : Z) : Z := diasDe y m d * msPerDay + hh * 3600000.

Definition DateFromTime (t : Z) : Z := snd (civil (Day t)).
Definition MonthFromTime (t : Z) : Z := snd (fst (civil (Day t))) - 1.
Definition YearFromTime (t : Z) : Z := fst (fst (civil (Day t))).

End Data.

(** ** The environment of the server process *)

(** [relogio k] is what the k-th [new Date()] of the process reads;
    [LocalTZA t] is the offset of the server's time zone at instant t. *)
Record ambiente := {
  relogio : nat -> Z;
  LocalTZA : Z -> Z
}.

Definition LocalTime (amb : ambiente) (t : Z) : Z := t + LocalTZA amb t.

(** Date.prototype.getDate: the day of the month, 1..31, in local time. *)
Definition getDate (amb : ambiente) (t : Z) : Z :=
  Data.DateFromTime (LocalTime amb t).

(** The local calendar day an instant falls on. *)
Definition diaCivil (amb : ambiente) (t : Z) : Z := Data.Day (LocalTime amb t).

(** Date.prototype.toLocaleString("pt-BR") renders the local date and time
    of day down to the second; the rendering is kept as the local second
    it shows. *)
Definition toLocaleString (amb : ambiente) (t : Z) : Z := LocalTime amb t / 1000.

(** A string of UTF-16 code units. *)
Definition texto16 := list N.

(** WhiteSpace and LineTerminator code points, as String.prototype.trim
    strips them. *)
Definition espaco (c : N) : bool :=
  ((9 <=? c) && (c <=? 13) || (c =? 32) || (c =? 160) || (c =? 5760)
   || (8192 <=? c) && (c <=? 8202) || (c =? 8232) || (c =? 8233)
   || (c =? 8239) || (c =? 8287) || (c =? 12288) || (c =? 65279))%N.

Fixpoint trimStart (s : texto16) : texto16 :=
  match s with
  | c :: s' => if espaco c then trimStart s' else s
  | [] => []
  end.

Definition trim (s : texto16) : texto16 := rev (trimStart (rev (trimStart s))).

(** ** lib/store *)

Module Store.

Record nota := { texto : texto16; data : Z }.

(** One entry of [pets].  [None] in [remedio], [ultimoHorarioRemedio],
    [maxRemedio] and [alertaSaude] is a property the object literal does
    not have; [Some None] in [ultimoHorarioRemedio] is [null]. *)
Record pet := {
  dataNascimento : string;
  especie : string;
  genero : string;
  raca : string;
  peso : string;
  cor : string;
  comida : Z;
  ultimoHorarioComida : option Z;
  maxComida : Z;
  temRemedio : bool;
  remedio : option Z;
  ultimoHorarioRemedio : option (option Z);
  maxRemedio : option Z;
  alertaSaude : option bool;
  notas : list nota
}.

Definition tutu : pet := {|
  dataNascimento := "2025-03-17"; especie := "Gato"; genero := "Macho";
  raca := "Vira-lata"; peso := "3,4 kg"; cor := "Branco e laranja";
  comida := 0; ultimoHorarioComida := None; maxComida := 3;
  temRemedio := true;
  remedio := Some 0; ultimoHorarioRemedio := Some None; maxRemedio := Some 2;
  alertaSaude := Some false;
  notas := [] |}.

Definition noah : pet := {|
  dataNascimento := "2019-07-22"; especie := "Cachorro"; genero := "Macho";
  raca := "Vira-lata"; peso := "28 kg"; cor := "Branco";
  comida := 0; ultimoHorarioComida := None; maxComida := 3;
  temRemedio := false;
  remedio := None; ultimoHorarioRemedio := None; maxRemedio := None;
  alertaSaude := None;
  notas := [] |}.

(** The module's mutable bindings, and how many clock readings the
    process has consumed. *)
Record estado := {
  pets : gmap string pet;
  ultimoReset : Z;
  leituras : nat
}.

Definition M (A : Type) : Type := ambiente -> estado -> A * estado.

#[export] Instance M_ret : MRet M := fun A (a : A) _ s => (a, s).
#[export] Instance M_bind : MBind M := fun A B (f : A -> M B) (m : M A) amb s =>
  let '(a, s') := m amb s in f a amb s'.

(** [new Date()]: the next reading of the clock. *)
Definition novaData : M Z := fun amb s =>
  (relogio amb (leituras s),
   {| pets := pets s; ultimoReset := ultimoReset s; leituras := S (leituras s) |}).

Definition lerPets : M (gmap string pet) := fun _ s => (pets s, s).
Definition lerUltimoReset : M Z := fun _ s => (ultimoReset s, s).
Definition lerAmbiente : M ambiente := fun amb s => (amb, s).
Definition gravarPets (m : gmap string pet) : M unit := fun _ s =>
  (tt, {| pets := m; ultimoReset := ultimoReset s; leituras := leituras s |}).
Definition gravarUltimoReset (d : Z) : M unit := fun _ s =>
  (tt, {| pets := pets s; ultimoReset := d; leituras := leituras s |}).

(** The module starts with the two records and
    [ultimoReset = new Date().getDate()]. *)
Definition estadoInicial (amb : ambiente) : estado :=
  {| pets := <["tutu" := tutu]> (<["noah" := noah]> ∅);
     ultimoReset := getDate amb (relogio amb 0);
     leituras := 1 |}.

(** What the body of the [forEach] in [verificarReset] does to one
    record. *)
Definition zerar (p : pet) : pet :=
  {| dataNascimento := dataNascimento p; especie := especie p;
     genero := genero p; raca := raca p; peso := peso p; cor := cor p;
     comida := 0;
     ultimoHorarioComida := None;
     maxComida := maxComida p;
     temRemedio := temRemedio p;
     remedio := if temRemedio p then Some 0 else remedio p;
     ultimoHorarioRemedio :=
       if temRemedio p then Some None else ultimoHorarioRemedio p;
     maxRemedio := maxRemedio p;
     alertaSaude := alertaSaude p;
     notas := notas p |}.

Definition verificarReset : M unit :=
  agora ← novaData;
  amb ← lerAmbiente;
  let hoje := getDate amb agora in
  ultimo ← lerUltimoReset;
  if bool_decide (hoje ≠ ultimo) then
    ps ← lerPets;
    gravarPets (zerar <$> ps);;
    gravarUltimoReset hoje
  else mret tt.

Record status := { tipo : string; mensagem : string }.

(** [(agora - ultimo) / 1000 / 60 / 60], the division taken exactly. *)
Definition horasDesde (agora ultimo : Z) : Q :=
  (inject_Z (agora - ultimo) / 1000 / 60 / 60)%Q.

Definition truthy (b : option bool) : bool := default false b.

(** The decision of [calcularStatus] once [agora] has been read. *)
Definition classificar (p : pet) (agora : Z) : status :=
  if truthy (alertaSaude p) then
    {| tipo := "saude"; mensagem := "Alerta de saúde 🚨" |}
  else if match ultimoHorarioComida p with
          | Some ultimaComida => Qle_bool 8 (horasDesde agora ultimaComida)
          | None => false
          end then
    {| tipo := "comida"; mensagem := "Alerta de comida 🚨" |}
  else if temRemedio p &&
          match ultimoHorarioRemedio p with
          | Some (Some ultimoRemedio) => Qle_bool 12 (horasDesde agora ultimoRemedio)
          | _ => false
          end then
    {| tipo := "remedio"; mensagem := "Alerta de remédio 🚨" |}
  else
    {| tipo := "ok"; mensagem := "Tudo certo ✅" |}.

Definition calcularStatus (p : pet) : M status :=
  agora ← novaData;
  mret (classificar p agora).

End Store.

(** ** api/pet/route.js *)

Module ApiPet.
Import Store.

(** What [pets[animal]] evaluates to.  [pets] is an object literal, so a
    key that is not one of its own properties is looked up on
    Object.prototype: the accessor [__proto__] yields Object.prototype
    itself, the method names yield functions, any other key is
    undefined. *)
Inductive valor :=
| VPet (p : pet)
| VObjectPrototype
| VFuncao (nome : string)
| VUndefined.

Definition herdadas : list string :=
  ["constructor"; "hasOwnProperty"; "isPrototypeOf"; "propertyIsEnumerable";
   "toLocaleString"; "toString"; "valueOf"; "__defineGetter__";
   "__defineSetter__"; "__lookupGetter__"; "__lookupSetter__"].

Definition obter (ps : gmap string pet) (animal : string) : valor :=
  match ps !! animal with
  | Some p => VPet p
  | None =>
      if bool_decide (animal = "__proto__") then VObjectPrototype
      else if bool_decide (animal ∈ herdadas) then VFuncao animal
      else VUndefined
  end.

(** What the handler hands back: a JSON response, or an exception that
    leaves the handler uncaught. *)
Inductive corpo :=
| CPet (p : pet)
| CVazio.

Inductive resposta :=
| Resp200 (c : corpo)
| Resp400 (error : string)
| Lancou.

(** The parsed body of a POST, [{ animal, tipo, texto }]; [texto] is
    [None] when the property is absent or null. *)
Record pedido := {
  animal : string;
  tipo : string;
  texto : option texto16
}.

(** [a < b] on values that may be undefined. *)
Definition menor (a b : option Z) : bool :=
  match a, b with
  | Some x, Some y => x <? y
  | _, _ => false
  end.

(** [texto?.trim()] is truthy. *)
Definition temTexto (t : option texto16) : bool :=
  match t with
  | Some s => negb (bool_decide (trim s = []))
  | None => false
  end.

(** The first [if] of POST. *)
Definition registrarComida (tipo : string) (agoraISO : Z) (p : pet) : pet :=
  if bool_decide (tipo = "comida") && (comida p <? maxComida p) then
    {| dataNascimento := dataNascimento p; especie := especie p;
       genero := genero p; raca := raca p; peso := peso p; cor := cor p;
       comida := comida p + 1;
       ultimoHorarioComida := Some agoraISO;
       maxComida := maxComida p;
       temRemedio := temRemedio p;
       remedio := remedio p;
       ultimoHorarioRemedio := ultimoHorarioRemedio p;
       maxRemedio := maxRemedio p;
       alertaSaude := alertaSaude p;
       notas := notas p |}
  else p.

(** The second [if] of POST. *)
Definition registrarRemedio (tipo : string) (agoraISO : Z) (p : pet) : pet :=
  if bool_decide (tipo = "remedio") && temRemedio p then
    if menor (remedio p) (maxRemedio p) then
      {| dataNascimento := dataNascimento p; especie := especie p;
         genero := genero p; raca := raca p; peso := peso p; cor := cor p;
         comida := comida p;
         ultimoHorarioComida := ultimoHorarioComida p;
         maxComida := maxComida p;
         temRemedio := temRemedio p;
         remedio := Z.succ <$> remedio p;
         ultimoHorarioRemedio := Some (Some agoraISO);
         maxRemedio := maxRemedio p;
         alertaSaude := alertaSaude p;
         notas := notas p |}
    else p
  else p.

(** [pet.notas.push(n)]. *)
Definition push (n : nota) (p : pet) : pet :=
  {| dataNascimento := dataNascimento p; especie := especie p;
     genero := genero p; raca := raca p; peso := peso p; cor := cor p;
     comida := comida p;
     ultimoHorarioComida := ultimoHorarioComida p;
     maxComida := maxComida p;
     temRemedio := temRemedio p;
     remedio := remedio p;
     ultimoHorarioRemedio := ultimoHorarioRemedio p;
     maxRemedio := maxRemedio p;
     alertaSaude := alertaSaude p;
     notas := notas p ++ [n] |}.

(** The third [if] of POST: the note is dated by a [new Date()] of its
    own. *)
Definition registrarNota (tipo : string) (texto : option texto16) (p : pet) : M pet :=
  if bool_decide (tipo = "nota") && temTexto texto then
    agora ← novaData;
    amb ← lerAmbiente;
    mret (push {| Store.texto := trim (default [] texto);
                  data := toLocaleString amb agora |} p)
  else mret p.

Definition GET (animal : option string) : M resposta :=
  verificarReset;;
  ps ← lerPets;
  match animal with
  | None => mret (Resp400 "Animal inválido")
  | Some a =>
      if bool_decide (a = "") then mret (Resp400 "Animal inválido")
      else
        match obter ps a with
        | VUndefined => mret (Resp400 "Animal inválido")
        | VPet p => mret (Resp200 (CPet p))
        | VObjectPrototype => mret (Resp200 CVazio)
        | VFuncao _ => mret Lancou
        end
  end.

(** [body = None] is a request whose body is not JSON.  The record [pet]
    is a reference into [pets]: what the three [if]s do to it is written
    back under the same key. *)
Definition POST (body : option pedido) : M resposta :=
  verificarReset;;
  match body with
  | None => mret (Resp400 "JSON inválido")
  | Some b =>
      ps ← lerPets;
      match obter ps (animal b) with
      | VUndefined => mret (Resp400 "Animal inválido")
      | VPet p =>
          agoraISO ← novaData;
          let p1 := registrarComida (tipo b) agoraISO p in
          let p2 := registrarRemedio (tipo b) agoraISO p1 in
          p3 ← registrarNota (tipo b) (texto b) p2;
          gravarPets (<[animal b := p3]> ps);;
          mret (Resp200 (CPet p3))
      | VObjectPrototype =>
          (* every property read on Object.prototype is undefined: the
             first two [if]s are false, [pet.notas.push] throws *)
          _ ← novaData;
          if bool_decide (tipo b = "nota") && temTexto (texto b)
          then mret Lancou
          else mret (Resp200 CVazio)
      | VFuncao _ =>
          (* as above; a function has no JSON text, Response.json throws *)
          _ ← novaData;
          mret Lancou
      end
  end.

End ApiPet.

(** ** api/status/route.js *)

Module ApiStatus.
Import Store.

(** The answer of the handler: the object [resultado], as its entries in
    the order they were added, or an exception that leaves the handler. *)
Inductive resposta :=
| Resp200 (resultado : list (string * status))
| Lancou.

(** The [forEach] over [Object.keys(pets)].  [chaves] is that array: the
    own keys of [pets] in the order the literal lists them, which the map
    of the records does not keep.  A key without a record would hand
    [undefined] to [calcularStatus], which throws once it has read the
    clock. *)
Fixpoint percorrer (chaves : list string) : M (option (list (string * status))) :=
  match chaves with
  | [] => mret (Some [])
  | nome :: resto =>
      ps ← lerPets;
      match ps !! nome with
      | Some p =>
          st ← calcularStatus p;
          r ← percorrer resto;
          mret (cons (nome, st) <$> r)
      | None =>
          _ ← novaData;
          mret None
      end
  end.

Definition GET (chaves : list string) : M resposta :=
  verificarReset;;
  r ← percorrer chaves;
  mret (match r with
        | Some resultado => Resp200 resultado
        | None => Lancou
        end).

(** [Object.keys(pets)] of the store as the module defines it. *)
Definition chaves_iniciais : list string := ["tutu"; "noah"].

End ApiStatus.

(** ** The pages *)

(** Date.prototype.getFullYear and getMonth (0..11), in local time. *)
Definition getFullYear (amb : ambiente) (t : Z) : Z :=
  Data.YearFromTime (LocalTime amb t).

Definition getMonth (amb : ambiente) (t : Z) : Z :=
  Data.MonthFromTime (LocalTime amb t).

(** A template literal's [${n}] for an integer [n]. *)
Definition numero (n : Z) : string := pretty n.

(** What the pages receive: a JSON text parsed into a value. *)
Module Json.

#[local] Set Warnings "-register-all".

Inductive valor :=
| Nulo
| Bool (b : bool)
| Num (n : Z)
| Str (s : string)
| Arr (itens : list valor)
| Obj (campos : list (string * valor)).

(** [o[k]] for an own property; [None] is undefined. *)
Fixpoint campo (campos : list (string * valor)) (k : string) : option valor :=
  match campos with
  | [] => None
  | (k', v) :: resto => if String.eqb k' k then Some v else campo resto k
  end.

(** [v.k] and [v?.k] for a key that Object.prototype does not have:
    undefined and null give undefined under [?.], an object gives its own
    property, everything else has no such property. *)
Definition prop (v : option valor) (k : string) : option valor :=
  match v with
  | Some (Obj campos) => campo campos k
  | _ => None
  end.

Definition truthy (v : option valor) : bool :=
  match v with
  | None | Some Nulo => false
  | Some (Bool b) => b
  | Some (Num n) => negb (n =? 0)
  | Some (Str s) => negb (String.eqb s "")
  | Some (Arr _) | Some (Obj _) => true
  end.

(** The status object [{ tipo, mensagem }] as [Response.json] writes it
    and [res.json()] reads it back. *)
Definition deStatus (st : Store.status) : valor :=
  Obj [("tipo", Str (Store.tipo st)); ("mensagem", Str (Store.mensagem st))].

(** The body of a 200 from GET /api/status, read back. *)
Definition deResultado (resultado : list (string * Store.status)) : valor :=
  Obj (prod_map id deStatus <$> resultado).

End Json.

(** *** components/PetCard.js and the home page *)

Module PetCard.

(** The years and months of [calcularIdade], lines 28 to 35: [hoje] is
    the reading of [new Date()] and [nascimento] the time value of
    [new Date(dataNascimento)]. *)
Definition anosMeses (amb : ambiente) (hoje nascimento : Z) : Z * Z :=
  let anos := getFullYear amb hoje - getFullYear amb nascimento in
  let meses := getMonth amb hoje - getMonth amb nascimento in
  if meses <? 0 then (anos - 1, meses + 12) else (anos, meses).

(** The three [return]s of [calcularIdade]. *)
Definition texto (anos meses : Z) : string :=
  if anos =? 0 then
    numero meses +:+ " " +:+ (if meses =? 1 then "mês" else "meses")
  else if meses =? 0 then
    numero anos +:+ " " +:+ (if anos =? 1 then "ano" else "anos")
  else
    numero anos +:+ " " +:+ (if anos =? 1 then "ano" else "anos") +:+ " e " +:+
    numero meses +:+ " " +:+ (if meses =? 1 then "mês" else "meses").

(** [calcularIdade(dataNascimento)]; [nascimento = None] is an Invalid
    Date, whose year and month are NaN: no comparison with NaN holds and
    the last [return] prints it twice. *)
Definition calcularIdade (amb : ambiente) (hoje : Z) (nascimento : option Z) : string :=
  match nascimento with
  | Some n => let '(anos, meses) := anosMeses amb hoje n in texto anos meses
  | None => "NaN anos e NaN meses"
  end.

(** The guard of the block "Alertas se houver", as far as
    [pet.status && pet.status.alertas]: the value of the two conjuncts,
    which is the falsy [pet.status] or else its property [alertas].  When
    it is falsy the block is not rendered and the rest of the chain,
    [.length > 0] and [.map], is not evaluated. *)
Definition guardaAlertas (status : option Json.valor) : option Json.valor :=
  if Json.truthy status then Json.prop status "alertas" else status.

End PetCard.

Module Home.

(** The array [pets] of the page, as far as the search and the cards read
    it. *)
Record pet := {
  id : string;
  nome : string;
  raca : string;
  genero : string;
  dataNascimento : string
}.

Definition pets : list pet :=
  [ {| id := "tutu"; nome := "Tutu"; raca := "Vira-lata"; genero := "Macho";
       dataNascimento := "2025-03-17" |};
    {| id := "noah"; nome := "Noah"; raca := "Golden Retriever"; genero := "Macho";
       dataNascimento := "2019-07-22" |} ].

(** [status?.[pet.id]], the [status] handed to the card of one of [pets];
    the state [status] is [None] (null) until a 200 from /api/status has
    been stored. *)
Definition statusDoPet (status : option Json.valor) (p : pet) : option Json.valor :=
  Json.prop status (id p).

(** [status?.usuario?.nome || "usuário"] of the greeting. *)
Definition saudacao (status : option Json.valor) : option Json.valor :=
  let nome := Json.prop (Json.prop status "usuario") "nome" in
  if Json.truthy nome then nome else Some (Json.Str "usuário").

(** The page's [calcularIdade], the same function as the card's. *)
Definition calcularIdade := PetCard.calcularIdade.

End Home.

(** *** The page of one pet *)

Module PetPage.

(** The years and months of the page's [calcularIdade], as on the card. *)
Definition anosMeses := PetCard.anosMeses.

(** The two [return]s that follow: with a year or more the months are
    always printed, and what is not a positive number of years prints
    the months alone. *)
Definition texto (anos meses : Z) : string :=
  if 0 <? anos then
    numero anos +:+ " " +:+ (if anos =? 1 then "ano" else "anos") +:+ ", " +:+
    numero meses +:+ " " +:+ (if meses =? 1 then "mês" else "meses")
  else
    numero meses +:+ " " +:+ (if meses =? 1 then "mês" else "meses").

(** [calcularIdade()]: [dataNascimento = None] when there is no [pet] or
    it has no such property; [nascimento] is the time value of
    [new Date(pet.dataNascimento)], [None] for an Invalid Date. *)
Definition calcularIdade (amb : ambiente) (hoje : Z)
    (dataNascimento : option string) (nascimento : option Z) : string :=
  match dataNascimento with
  | None => "Desconhecida"
  | Some d =>
      if String.eqb d "" then "Desconhecida"
      else
        match nascimento with
        | Some n => let '(anos, meses) := anosMeses amb hoje n in texto anos meses
        | None => "NaN meses"
        end
  end.

(** The row of icons of a counter:
    [Array.from({ length: max }).map((_, i) => i < atual ? ... : ...)],
    [true] for "eaten" or "taken". *)
Definition icones (max atual : Z) : list bool :=
  (fun i => i <? atual) <$> seqZ 0 max.

End PetPage.

Import Store.

(** * What the statements below are written with *)

(** ** Runs and histories *)

(** The state a computation leaves, and the value it returns. *)
Definition apos {A} (m : M A) (amb : ambiente) (s : estado) : estado := snd (m amb s).
Definition valorDe {A} (m : M A) (amb : ambiente) (s : estado) : A := fst (m amb s).

(** The reading the next [new Date()] will see. *)
Definition proxima (amb : ambiente) (s : estado) : Z := relogio amb (leituras s).

(** [n] calls in a row. *)
Fixpoint repetir (n : nat) (m : M unit) : M unit :=
  match n with
  | O => mret tt
  | S n' => m;; repetir n' m
  end.

(** One request to /api/pet, and a history of them. *)
Inductive chamada :=
| ChamadaGET (animal : option string)
| ChamadaPOST (body : option ApiPet.pedido).

Definition atender (c : chamada) : M ApiPet.resposta :=
  match c with
  | ChamadaGET a => ApiPet.GET a
  | ChamadaPOST b => ApiPet.POST b
  end.

Fixpoint servir (cs : list chamada) : M unit :=
  match cs with
  | [] => mret tt
  | c :: cs' => atender c;; servir cs'
  end.

(** The bodies of the three kinds of POST. *)
Definition pedido_comida (a : string) : ApiPet.pedido :=
  {| ApiPet.animal := a; ApiPet.tipo := "comida"; ApiPet.texto := None |}.

Definition pedido_remedio (a : string) : ApiPet.pedido :=
  {| ApiPet.animal := a; ApiPet.tipo := "remedio"; ApiPet.texto := None |}.

Definition pedido_nota (a : string) (t : option texto16) : ApiPet.pedido :=
  {| ApiPet.animal := a; ApiPet.tipo := "nota"; ApiPet.texto := t |}.

Definition anotar (a : string) (x : texto16) : chamada :=
  ChamadaPOST (Some (pedido_nota a (Some x))).

(** The note POST appends for a text, dated by the reading [agora]. *)
Definition notaDe (amb : ambiente) (t : option texto16) (agora : Z) : nota :=
  {| texto := trim (default [] t); data := toLocaleString amb agora |}.

(** The notes that a run of "nota" requests with the texts [ts] appends,
    when the first request starts at clock reading [k]: each request
    reads the clock three times and dates its note by the third. *)
Fixpoint notasDe (amb : ambiente) (k : nat) (ts : list texto16) : list nota :=
  match ts with
  | [] => []
  | x :: ts' => notaDe amb (Some x) (relogio amb (k + 2)) :: notasDe amb (k + 3) ts'
  end.

(** ** Relations between a record before and after *)

(** What [verificarReset] must leave alone in a record: everything but
    [comida] and [ultimoHorarioComida], and the two medication fields too
    when the record has no medication. *)
Definition preservado (p p' : pet) : Prop :=
  dataNascimento p' = dataNascimento p /\
  especie p' = especie p /\
  genero p' = genero p /\
  raca p' = raca p /\
  peso p' = peso p /\
  cor p' = cor p /\
  maxComida p' = maxComida p /\
  temRemedio p' = temRemedio p /\
  maxRemedio p' = maxRemedio p /\
  alertaSaude p' = alertaSaude p /\
  notas p' = notas p /\
  (temRemedio p = true \/
   remedio p' = remedio p /\ ultimoHorarioRemedio p' = ultimoHorarioRemedio p).

(** The maximum does not move, and a counter within it stays within it. *)
Definition dentroDoLimite (p p' : pet) : Prop :=
  maxComida p' = maxComida p /\
  (0 <= maxComida p -> comida p <= maxComida p -> comida p' <= maxComida p').

(** A record without medication stays one and keeps its two medication
    fields. *)
Definition semRemedio (p p' : pet) : Prop :=
  temRemedio p = false ->
  temRemedio p' = false /\
  remedio p' = remedio p /\
  ultimoHorarioRemedio p' = ultimoHorarioRemedio p.

(** ** The conditions of the alerts *)

Definition msPorHora : Z := 3600000.

(** The feeding is at least 8 hours old. *)
Definition comidaVencida (p : pet) (agora : Z) : Prop :=
  exists t, ultimoHorarioComida p = Some t /\ 8 * msPorHora <= agora - t.

(** The record has medication and the last dose is at least 12 hours old. *)
Definition remedioVencido (p : pet) (agora : Z) : Prop :=
  temRemedio p = true /\
  exists t, ultimoHorarioRemedio p = Some (Some t) /\ 12 * msPorHora <= agora - t.

(** ** Scenarios *)

(** A server in UTC whose clock reads [c]. *)
Definition amb_teste (c : nat -> Z) : ambiente := {| relogio := c; LocalTZA := fun _ => 0 |}.

(** A server that starts on 15 January 2025, serves one feeding of tutu
    that afternoon, and is next called on 15 February 2025. *)
Definition relogio_janeiro_fevereiro (k : nat) : Z :=
  match k with
  | 0%nat => Data.utc 2025 1 15 12
  | 1%nat | 2%nat => Data.utc 2025 1 15 13
  | _ => Data.utc 2025 2 15 12
  end.

(** tutu gets his medication half an hour after the server starts and is
    looked at thirteen hours later, the same day, not having been fed. *)
Definition relogio_remedio (k : nat) : Z :=
  match k with
  | 0%nat => Data.utc 2025 3 10 0
  | 1%nat | 2%nat => Data.utc 2025 3 10 0 + 1800000
  | _ => Data.utc 2025 3 10 13 + 1800000
  end.

(** An afternoon with one clock reading a minute. *)
Definition relogio_tarde (k : nat) : Z := Data.utc 2025 3 10 12 + Z.of_nat k * 60000.

(** Five feedings of tutu. *)
Definition cinco_refeicoes : list chamada :=
  replicate 5 (ChamadaPOST (Some (pedido_comida "tutu"))).

(** An evening of two requests, and the next one the morning after. *)
Definition relogio_virada (k : nat) : Z :=
  match k with
  | 0%nat | 1%nat | 2%nat | 3%nat | 4%nat => Data.utc 2025 3 10 20 + Z.of_nat k * 60000
  | _ => Data.utc 2025 3 11 9
  end.

(** A request handled as a second ends: the reset check reads the clock
    at 12:00:00.998, the action timestamp at 12:00:00.999 and the note's
    date at 12:00:01.000. *)
Definition relogio_segundo (k : nat) : Z :=
  match k with
  | 0%nat => Data.utc 2025 3 10 12
  | _ => Data.utc 2025 3 10 12 + 997 + Z.of_nat k
  end.

(** The texts "  oi " and "ok". *)
Definition texto_oi : texto16 := [32; 32; 111; 105; 32]%N.
Definition texto_ok : texto16 := [111; 107]%N.

(** A request of a kind the route does not know. *)
Definition pedido_passeio : ApiPet.pedido :=
  {| ApiPet.animal := "noah"; ApiPet.tipo := "passeio"; ApiPet.texto := None |}.

(** [f] holds of the [n] days from [de] on. *)
Definition todosOsDias (f : Z -> bool) (de : Z) (n : positive) : bool :=
  snd (Pos.iter (fun '(d, ok) => (d + 1, ok && f d)) (de, true) n).

(** ** Histories over the three routes *)

(** A request to the server: GET or POST on /api/pet, or GET on
    /api/status. *)
Inductive requisicao :=
| PetGET (animal : option string)
| PetPOST (body : option ApiPet.pedido)
| StatusGET.

(** What handling a request does to the state; [chaves] is
    [Object.keys(pets)]. *)
Definition responder (chaves : list string) (r : requisicao) : M unit :=
  match r with
  | PetGET a => ApiPet.GET a;; mret tt
  | PetPOST b => ApiPet.POST b;; mret tt
  | StatusGET => ApiStatus.GET chaves;; mret tt
  end.

Fixpoint historico (chaves : list string) (rs : list requisicao) : M unit :=
  match rs with
  | [] => mret tt
  | r :: rs' => responder chaves r;; historico chaves rs'
  end.

(** The states the server can be in: the initial one and those a history
    of requests leads to. *)
Definition alcancavel (amb : ambiente) (s : estado) : Prop :=
  exists rs, s = apos (historico ApiStatus.chaves_iniciais rs) amb (estadoInicial amb).

(** ** More relations and scenarios *)

(** Three medications of tutu, a look at the statuses, and a fourth
    medication. *)
Definition quatro_remedios : list requisicao :=
  [PetPOST (Some (pedido_remedio "tutu")); PetPOST (Some (pedido_remedio "tutu"));
   PetPOST (Some (pedido_remedio "tutu")); StatusGET;
   PetPOST (Some (pedido_remedio "tutu"))].

(** The fields no request writes. *)
Definition mesmosEstaticos (p p' : pet) : Prop :=
  dataNascimento p' = dataNascimento p /\
  especie p' = especie p /\
  genero p' = genero p /\
  raca p' = raca p /\
  peso p' = peso p /\
  cor p' = cor p /\
  maxComida p' = maxComida p /\
  temRemedio p' = temRemedio p /\
  maxRemedio p' = maxRemedio p /\
  alertaSaude p' = alertaSaude p.

(** tutu fed at noon, and the statuses asked nine hours later. *)
Definition relogio_nove_horas (k : nat) : Z :=
  match k with
  | 0%nat | 1%nat | 2%nat => Data.utc 2025 3 10 12
  | _ => Data.utc 2025 3 10 21 + Z.of_nat k
  end.

(** tutu fed in the evening, and the statuses asked the next morning. *)
Definition relogio_manha_seguinte (k : nat) : Z :=
  match k with
  | 0%nat | 1%nat | 2%nat => Data.utc 2025 3 10 20
  | _ => Data.utc 2025 3 11 9
  end.

(** A server that starts at 23:00 on 14 February 2025 and serves one
    request before midnight; from the fourth reading on the clock reads
    the hours of 15 February. *)
Definition relogio_dois_dias (k : nat) : Z :=
  match k with
  | 0%nat | 1%nat | 2%nat => Data.utc 2025 2 14 23 + Z.of_nat k * 60000
  | _ => Data.utc 2025 2 15 0 + Z.of_nat k * 3600000
  end.

(** A feeding of tutu, a look at the statuses and a note. *)
Definition dia_de_pedidos : list requisicao :=
  [PetPOST (Some (pedido_comida "tutu")); StatusGET;
   PetPOST (Some (pedido_nota "tutu" (Some texto_oi)))].

(** A record whose counters and timestamps agree: [comida] is at least 0,
    there is no [ultimoHorarioComida] when it is 0 and there is one when
    it is positive; and for a record with medication [remedio] is a
    number that is at least 0, [ultimoHorarioRemedio] is null when it is
    0 and is a time when it is positive. *)
Definition horarioCoerente (p : pet) : Prop :=
  0 <= comida p /\
  (comida p = 0 -> ultimoHorarioComida p = None) /\
  (0 < comida p -> exists t, ultimoHorarioComida p = Some t) /\
  (temRemedio p = true ->
   exists r, remedio p = Some r /\ 0 <= r /\
             (r = 0 -> ultimoHorarioRemedio p = Some None) /\
             (0 < r -> exists t, ultimoHorarioRemedio p = Some (Some t))).

(** A text as POST stores it: not empty, no white space at either end. *)
Definition aparado (x : texto16) : Prop :=
  x <> [] /\
  (forall c, head x = Some c -> espaco c = false) /\
  (forall c, last x = Some c -> espaco c = false).

(** White space and nothing else; the empty text too. *)
Definition brancos (x : texto16) : Prop := Forall (fun c => espaco c = true) x.

(** [y] is [x] without the white space around it: [x] is [y] between two
    runs of white space, and [y] neither starts nor ends with white
    space. *)
Definition semBrancosEmVolta (x y : texto16) : Prop :=
  exists antes depois,
    x = antes ++ y ++ depois /\ brancos antes /\ brancos depois /\
    (forall c, head y = Some c -> espaco c = false) /\
    (forall c, last y = Some c -> espaco c = false).

(** The entries with the texts [ys], dated as a run of "nota" requests
    that starts at clock reading [k] dates them: each request reads the
    clock three times and dates its entry by the third reading. *)
Fixpoint entradas (amb : ambiente) (k : nat) (ys : list texto16) : list nota :=
  match ys with
  | [] => []
  | y :: ys' =>
      {| texto := y; data := toLocaleString amb (relogio amb (k + 2)) |}
        :: entradas amb (k + 3) ys'
  end.

(** Notes sent with blanks around them, one of them blank altogether. *)
Definition notas_com_espacos : list requisicao :=
  [PetPOST (Some (pedido_nota "tutu" (Some texto_oi)));
   PetPOST (Some (pedido_nota "tutu" (Some [32; 9; 160]%N)));
   StatusGET;
   PetPOST (Some (pedido_nota "tutu" (Some [10; 111; 107; 32; 32]%N)))].

(** São Paulo, three hours behind UTC; a pet born on "2024-03-01", seen
    at noon UTC on 15 March 2024. *)
Definition amb_sao_paulo : ambiente :=
  {| relogio := fun _ => Data.utc 2024 3 15 12; LocalTZA := fun _ => -10800000 |}.

(** * Properties *)

Example civil_epoch : Data.civil 0 = (1970, 1, 1).
Proof. reflexivity. Qed.

Example civil_20250115 : Data.civil (Data.diasDe 2025 1 15) = (2025, 1, 15).
Proof. reflexivity. Qed.

Example civil_leap : Data.civil (Data.diasDe 2024 2 29) = (2024, 2, 29).
Proof. reflexivity. Qed.

Example civil_19691231 : Data.civil (-1) = (1969, 12, 31).
Proof. reflexivity. Qed.

(** ** The calendar, checked on the years 2000 to 2049 *)

(** [civil] and [diasDe] are inverse there, and from one day to the next
    the day of the month goes up by one or falls from 28..31 to 1. *)
Example civil_calendar_2000_2049 :
  todosOsDias (fun d =>
    let '(y, m, dd) := Data.civil d in
    (Data.diasDe y m dd =? d) && (1 <=? m) && (m <=? 12) &&
    let dd' := snd (Data.civil (d + 1)) in
    ((dd' =? dd + 1) && (dd' <=? 31) || (dd' =? 1) && (28 <=? dd)))
    (Data.diasDe 2000 1 1) 18263 = true.
Proof. vm_compute. reflexivity. Qed.

(** A call three days after the last reset never finds the same day of
    the month. *)
Example three_days_later_other_date :
  todosOsDias (fun d => negb (snd (Data.civil (d + 3)) =? snd (Data.civil d)))
    (Data.diasDe 2000 1 1) 18263 = true.
Proof. vm_compute. reflexivity. Qed.

(** ** Running the handlers *)

(** Closed goals about concrete runs: evaluate each conjunct. *)
Ltac calcula := repeat apply conj; vm_compute; reflexivity.

Lemma apos_bind {A B} (m : M A) (f : A -> M B) amb s :
  apos (m ≫= f) amb s = apos (f (valorDe m amb s)) amb (apos m amb s).
Proof. unfold apos, valorDe, mbind, M_bind. destruct (m amb s); reflexivity. Qed.

Lemma repetir_S n (m : M unit) amb s :
  apos (repetir (S n) m) amb s = apos (repetir n m) amb (apos m amb s).
Proof. simpl. apply apos_bind. Qed.

Lemma run_bind {A B} (m : M A) (f : A -> M B) amb s :
  (m ≫= f) amb s = f (valorDe m amb s) amb (apos m amb s).
Proof. unfold apos, valorDe, mbind, M_bind. destruct (m amb s); reflexivity. Qed.

(** ** The daily reset *)

Lemma verificarReset_eq amb s :
  verificarReset amb s =
  (tt,
   if bool_decide (getDate amb (proxima amb s) ≠ ultimoReset s) then
     {| pets := zerar <$> pets s;
        ultimoReset := getDate amb (proxima amb s);
        leituras := S (leituras s) |}
   else
     {| pets := pets s; ultimoReset := ultimoReset s; leituras := S (leituras s) |}).
Proof.
  unfold verificarReset, proxima, mbind, M_bind, novaData, lerAmbiente, lerUltimoReset.
  simpl. case_bool_decide; reflexivity.
Qed.

Lemma getDate_diaCivil amb t u :
  diaCivil amb t = diaCivil amb u -> getDate amb t = getDate amb u.
Proof.
  unfold getDate, diaCivil, Data.DateFromTime. intros ->. reflexivity.
Qed.

Lemma verificarReset_ultimoReset amb s :
  ultimoReset (apos verificarReset amb s) = getDate amb (proxima amb s).
Proof.
  unfold apos. rewrite verificarReset_eq. simpl.
  case_bool_decide as H; simpl; [reflexivity|].
  destruct (decide (getDate amb (proxima amb s) = ultimoReset s)); congruence.
Qed.

Lemma verificarReset_leituras amb s :
  leituras (apos verificarReset amb s) = S (leituras s).
Proof.
  unfold apos. rewrite verificarReset_eq. simpl. case_bool_decide; reflexivity.
Qed.

(** A call that finds the day of the month it stored changes nothing but
    the count of clock readings. *)
Lemma verificarReset_same_date amb s :
  getDate amb (proxima amb s) = ultimoReset s ->
  pets (apos verificarReset amb s) = pets s /\
  ultimoReset (apos verificarReset amb s) = ultimoReset s.
Proof.
  intros H. unfold apos. rewrite verificarReset_eq. simpl.
  rewrite bool_decide_eq_false_2 by (intros Hne; apply Hne, H). auto.
Qed.

(** A call that finds another day of the month resets every record. *)
Lemma verificarReset_other_date amb s :
  getDate amb (proxima amb s) ≠ ultimoReset s ->
  pets (apos verificarReset amb s) = zerar <$> pets s /\
  ultimoReset (apos verificarReset amb s) = getDate amb (proxima amb s).
Proof.
  intros H. unfold apos. rewrite verificarReset_eq. simpl.
  rewrite bool_decide_eq_true_2 by exact H. auto.
Qed.

(** X1: when the day of the month read from the clock is not the stored one,
    [verificarReset] stores it and resets every record: [comida] to 0,
    [ultimoHorarioComida] to null and, for a record with medication,
    [remedio] to 0 and [ultimoHorarioRemedio] to null. *)
Theorem verificarReset_resets_on_new_date amb s a :
  getDate amb (proxima amb s) <> ultimoReset s ->
  ultimoReset (apos verificarReset amb s) = getDate amb (proxima amb s) /\
  option_Forall2
    (fun p p' =>
       comida p' = 0 /\ ultimoHorarioComida p' = None /\
       (temRemedio p = false \/
        remedio p' = Some 0 /\ ultimoHorarioRemedio p' = Some None))
    (pets s !! a) (pets (apos verificarReset amb s) !! a).
Proof.
  intros H. destruct (verificarReset_other_date amb s H) as [-> ->].
  split; [reflexivity|]. rewrite lookup_fmap.
  destruct (pets s !! a) as [p|]; simpl; constructor.
  simpl. destruct (temRemedio p); auto.
Qed.

Lemma verificarReset_resets_on_new_date_witness :
  let amb := amb_teste relogio_virada in
  let s := apos (servir (replicate 2 (ChamadaPOST (Some (pedido_comida "tutu")))))
             amb (estadoInicial amb) in
  comida <$> pets s !! "tutu" = Some 2 /\
  ultimoReset (apos verificarReset amb s) = 11 /\
  option_Forall2
    (fun p p' =>
       comida p' = 0 /\ ultimoHorarioComida p' = None /\
       (temRemedio p = false \/
        remedio p' = Some 0 /\ ultimoHorarioRemedio p' = Some None))
    (pets s !! "tutu") (pets (apos verificarReset amb s) !! "tutu").
Proof.
  intros amb s. split; [vm_compute; reflexivity|].
  assert (getDate amb (proxima amb s) = 11) as E by (vm_compute; reflexivity).
  rewrite <- E.
  apply (verificarReset_resets_on_new_date amb s "tutu").
  vm_compute. discriminate.
Defined.

(** C1, the code at the failing input: the call of 15 February is one
    calendar month after the last reset, its day of the month is again 15,
    and [verificarReset] resets nothing: tutu keeps the feeding of
    15 January. *)
Theorem verificarReset_misses_same_day_of_month :
  let amb := amb_teste relogio_janeiro_fevereiro in
  let s1 := apos (ApiPet.POST (Some (pedido_comida "tutu"))) amb (estadoInicial amb) in
  let s2 := apos verificarReset amb s1 in
  diaCivil amb (Data.utc 2025 1 15 12) = 20103 /\
  diaCivil amb (proxima amb s1) = 20134 /\
  ultimoReset s1 = 15 /\
  getDate amb (proxima amb s1) = 15 /\
  comida <$> pets s1 !! "tutu" = Some 1 /\
  pets s2 = pets s1 /\
  comida <$> pets s2 !! "tutu" = Some 1 /\
  ultimoHorarioComida <$> pets s2 !! "tutu" = Some (Some (Data.utc 2025 1 15 13)) /\
  ultimoReset s2 = 15.
Proof. intros amb s1 s2. calcula. Qed.

Lemma repetir_same_day amb n : forall s d,
  ultimoReset s = d ->
  (forall k, (k < n)%nat -> getDate amb (relogio amb (leituras s + k)) = d) ->
  pets (apos (repetir n verificarReset) amb s) = pets s /\
  ultimoReset (apos (repetir n verificarReset) amb s) = ultimoReset s.
Proof.
  induction n as [|n IH]; intros s d Hd Hk; [split; reflexivity|].
  rewrite repetir_S.
  assert (Hnow : getDate amb (proxima amb s) = ultimoReset s).
  { unfold proxima. rewrite <- (Nat.add_0_r (leituras s)), Hd. apply Hk. lia. }
  destruct (verificarReset_same_date amb s Hnow) as [Hp Hu].
  destruct (IH (apos verificarReset amb s) d) as [Hp' Hu'].
  - congruence.
  - intros k Hlt. rewrite verificarReset_leituras.
    replace (S (leituras s) + k)%nat with (leituras s + S k)%nat by lia.
    apply Hk. lia.
  - rewrite Hp', Hu'. split; congruence.
Qed.

Lemma preservado_refl p : preservado p p.
Proof. unfold preservado. tauto. Qed.

Lemma preservado_zerar p : preservado p (zerar p).
Proof.
  unfold preservado, zerar. simpl.
  destruct (temRemedio p); tauto.
Qed.

Lemma verificarReset_preservado amb s animal :
  option_Forall2 preservado
    (pets s !! animal) (pets (apos verificarReset amb s) !! animal).
Proof.
  unfold apos. rewrite verificarReset_eq. simpl.
  case_bool_decide; simpl.
  - rewrite lookup_fmap. destruct (pets s !! animal) as [p|]; simpl;
      constructor. apply preservado_zerar.
  - destruct (pets s !! animal) as [p|]; constructor. apply preservado_refl.
Qed.

(** C10: whether or not it resets, [verificarReset] keeps the set of
    records, and in every record the notes, the health flag, the two
    maxima, [temRemedio] and the six descriptive attributes; a record
    without medication also keeps [remedio] and [ultimoHorarioRemedio].
    What it may change is [comida], [ultimoHorarioComida], the two
    medication fields of a record with medication, and [ultimoReset]. *)
Theorem verificarReset_frame amb s animal :
  option_Forall2
    (fun p p' =>
       dataNascimento p' = dataNascimento p /\
       especie p' = especie p /\
       genero p' = genero p /\
       raca p' = raca p /\
       peso p' = peso p /\
       cor p' = cor p /\
       maxComida p' = maxComida p /\
       temRemedio p' = temRemedio p /\
       maxRemedio p' = maxRemedio p /\
       alertaSaude p' = alertaSaude p /\
       notas p' = notas p /\
       (temRemedio p = true \/
        remedio p' = remedio p /\ ultimoHorarioRemedio p' = ultimoHorarioRemedio p))
    (pets s !! animal) (pets (apos verificarReset amb s) !! animal).
Proof.
  exact (verificarReset_preservado amb s animal).
Qed.

(** ** The alert status *)

(** The hours since [ultimo], divided out exactly, reach [h] exactly when
    the milliseconds reach [h] hours. *)
Lemma horasDesde_le (h agora ultimo : Z) :
  Qle_bool (inject_Z h) (horasDesde agora ultimo) = (h * msPorHora <=? agora - ultimo).
Proof.
  unfold horasDesde, msPorHora.
  generalize (agora - ultimo). intros x.
  apply Bool.eq_true_iff_eq. rewrite Qle_bool_iff, Z.leb_le.
  unfold Qle, Qdiv, Qmult, Qinv, inject_Z. simpl. lia.
Qed.

Lemma calcularStatus_eq p amb s :
  calcularStatus p amb s =
  (classificar p (proxima amb s),
   {| pets := pets s; ultimoReset := ultimoReset s; leituras := S (leituras s) |}).
Proof. reflexivity. Qed.

Lemma comidaVencida_bool p agora :
  match ultimoHorarioComida p with
  | Some ultimaComida => Qle_bool 8 (horasDesde agora ultimaComida)
  | None => false
  end = true <-> comidaVencida p agora.
Proof.
  unfold comidaVencida. destruct (ultimoHorarioComida p) as [t|].
  - change 8%Q with (inject_Z 8). rewrite horasDesde_le, Z.leb_le. split.
    + intros H. exists t. auto.
    + intros (t' & [= <-] & H). exact H.
  - split; [discriminate|]. intros (t & [=] & _).
Qed.

Lemma remedioVencido_bool p agora :
  temRemedio p &&
  match ultimoHorarioRemedio p with
  | Some (Some ultimoRemedio) => Qle_bool 12 (horasDesde agora ultimoRemedio)
  | _ => false
  end = true <-> remedioVencido p agora.
Proof.
  unfold remedioVencido. rewrite andb_true_iff.
  apply and_iff_compat_l.
  destruct (ultimoHorarioRemedio p) as [[t|]|].
  - change 12%Q with (inject_Z 12). rewrite horasDesde_le, Z.leb_le. split.
    + intros H. exists t. auto.
    + intros (t' & [= <-] & H). exact H.
  - split; [discriminate|]. intros (t & [=] & _).
  - split; [discriminate|]. intros (t & [=] & _).
Qed.

Lemma truthy_true b : truthy b = true <-> b = Some true.
Proof. destruct b as [[]|]; simpl; split; congruence. Qed.

Lemma classificar_cases p agora :
  let k := tipo (classificar p agora) in
  (k = "saude" <-> alertaSaude p = Some true) /\
  (k = "comida" <-> alertaSaude p <> Some true /\ comidaVencida p agora) /\
  (k = "remedio" <->
     alertaSaude p <> Some true /\ ~ comidaVencida p agora /\ remedioVencido p agora) /\
  (k = "ok" <->
     alertaSaude p <> Some true /\ ~ comidaVencida p agora /\ ~ remedioVencido p agora).
Proof.
  intros k. subst k. unfold classificar.
  destruct (truthy (alertaSaude p)) eqn:Es.
  { apply truthy_true in Es. simpl. intuition (discriminate || congruence). }
  assert (alertaSaude p <> Some true) as Hns.
  { rewrite <- truthy_true. congruence. }
  destruct (match ultimoHorarioComida p with Some _ => _ | None => _ end) eqn:Ec.
  { apply comidaVencida_bool in Ec. simpl. intuition (discriminate || congruence). }
  assert (~ comidaVencida p agora) as Hnc.
  { rewrite <- comidaVencida_bool. congruence. }
  destruct (temRemedio p && _) eqn:Er.
  { apply remedioVencido_bool in Er. simpl. intuition (discriminate || congruence). }
  assert (~ remedioVencido p agora) as Hnr.
  { rewrite <- remedioVencido_bool. congruence. }
  simpl. intuition (discriminate || congruence).
Qed.

(** C3, amended: [calcularStatus] answers the first kind that applies, in
    the order saude, comida, remedio, ok, where [agora] is the reading it
    takes of the clock; a record that was never fed and has no health
    alert is never "comida": it is "remedio" when its medication is
    overdue and "ok" when it is not. *)
Theorem calcularStatus_priority p amb s :
  let agora := proxima amb s in
  let k := tipo (valorDe (calcularStatus p) amb s) in
  (k = "saude" <-> alertaSaude p = Some true) /\
  (k = "comida" <-> alertaSaude p <> Some true /\ comidaVencida p agora) /\
  (k = "remedio" <->
     alertaSaude p <> Some true /\ ~ comidaVencida p agora /\ remedioVencido p agora) /\
  (k = "ok" <->
     alertaSaude p <> Some true /\ ~ comidaVencida p agora /\ ~ remedioVencido p agora) /\
  (ultimoHorarioComida p = None /\ alertaSaude p <> Some true ->
     k <> "saude" /\ k <> "comida" /\
     (k = "remedio" <-> remedioVencido p agora) /\
     (k = "ok" <-> ~ remedioVencido p agora)).
Proof.
  intros agora k. subst k. unfold valorDe. rewrite calcularStatus_eq. simpl.
  fold agora.
  destruct (classificar_cases p agora) as (Hs & Hc & Hr & Ho).
  refine (conj Hs (conj Hc (conj Hr (conj Ho _)))).
  intros [Hnunca Hns].
  assert (~ comidaVencida p agora) as Hnc.
  { intros (t & Ht & _). congruence. }
  tauto.
Qed.

(** C3 as stated fails: this record was never fed and has no health
    alert, and it evaluates to "remedio", not to "ok". *)
Lemma calcularStatus_never_fed_not_ok :
  let amb := amb_teste relogio_remedio in
  let s1 := apos (ApiPet.POST (Some (pedido_remedio "tutu"))) amb (estadoInicial amb) in
  let s2 := apos verificarReset amb s1 in
  ultimoHorarioComida <$> pets s2 !! "tutu" = Some None /\
  alertaSaude <$> pets s2 !! "tutu" = Some (Some false) /\
  (fun p => tipo (valorDe (calcularStatus p) amb s2)) <$> pets s2 !! "tutu"
    = Some "remedio".
Proof. intros amb s1 s2. calcula. Qed.

(** C9: what [calcularStatus] returns depends on the record and on the
    clock reading it takes and on nothing else (not on the store, the
    time zone or [ultimoReset]), and the call leaves every record and
    [ultimoReset] as they were. *)
Theorem calcularStatus_pure p amb s amb' s' :
  proxima amb s = proxima amb' s' ->
  valorDe (calcularStatus p) amb s = valorDe (calcularStatus p) amb' s' /\
  pets (apos (calcularStatus p) amb s) = pets s /\
  ultimoReset (apos (calcularStatus p) amb s) = ultimoReset s.
Proof.
  intros H. unfold valorDe, apos. rewrite !calcularStatus_eq. simpl.
  rewrite H. auto.
Qed.

Lemma calcularStatus_pure_witness :
  let amb := amb_teste relogio_remedio in
  let amb' := {| relogio := fun _ => Data.utc 2025 3 10 0 + 1800000; LocalTZA := fun _ => - 10800000 |} in
  let s' := {| pets := ∅; ultimoReset := 31; leituras := 7 |} in
  valorDe (calcularStatus tutu) amb (estadoInicial amb)
    = valorDe (calcularStatus tutu) amb' s' /\
  pets (apos (calcularStatus tutu) amb (estadoInicial amb)) = pets (estadoInicial amb) /\
  ultimoReset (apos (calcularStatus tutu) amb (estadoInicial amb))
    = ultimoReset (estadoInicial amb).
Proof.
  intros amb amb' s'.
  apply (calcularStatus_pure tutu amb (estadoInicial amb) amb' s').
  vm_compute. reflexivity.
Defined.

(** ** POST /api/pet *)

(** POST on a key that holds a record, as one equation: [s1] is the state
    the reset check leaves, [agoraISO] the next reading, and the note, if
    one is appended, is dated by the reading after that. *)
Lemma POST_pet amb s b p :
  let s1 := apos verificarReset amb s in
  let agoraISO := proxima amb s1 in
  let p2 := ApiPet.registrarRemedio (ApiPet.tipo b) agoraISO
              (ApiPet.registrarComida (ApiPet.tipo b) agoraISO p) in
  let p3 := ApiPet.push (notaDe amb (ApiPet.texto b) (relogio amb (S (leituras s1)))) p2 in
  pets s1 !! ApiPet.animal b = Some p ->
  ApiPet.POST (Some b) amb s =
    if bool_decide (ApiPet.tipo b = "nota") && ApiPet.temTexto (ApiPet.texto b) then
      (ApiPet.Resp200 (ApiPet.CPet p3),
       {| pets := <[ApiPet.animal b := p3]> (pets s1);
          ultimoReset := ultimoReset s1;
          leituras := S (S (leituras s1)) |})
    else
      (ApiPet.Resp200 (ApiPet.CPet p2),
       {| pets := <[ApiPet.animal b := p2]> (pets s1);
          ultimoReset := ultimoReset s1;
          leituras := S (leituras s1) |}).
Proof.
  intros s1 agoraISO p2 p3 Hp.
  unfold ApiPet.POST. rewrite run_bind. fold s1.
  change ((lerPets ≫= ?f) amb s1) with (f (pets s1) amb s1).
  cbv beta. unfold ApiPet.obter. rewrite Hp.
  change ((novaData ≫= ?f) amb s1) with
    (f agoraISO amb {| pets := pets s1; ultimoReset := ultimoReset s1;
                       leituras := S (leituras s1) |}).
  cbv beta zeta. fold p2.
  unfold ApiPet.registrarNota.
  destruct (bool_decide (ApiPet.tipo b = "nota") && ApiPet.temTexto (ApiPet.texto b));
    reflexivity.
Qed.

(** POST on a key that holds no record: nothing is written; the answer
    depends on what the key finds on Object.prototype. *)
Lemma POST_sem_registro amb s b :
  let s1 := apos verificarReset amb s in
  pets s1 !! ApiPet.animal b = None ->
  pets (apos (ApiPet.POST (Some b)) amb s) = pets s1 /\
  ultimoReset (apos (ApiPet.POST (Some b)) amb s) = ultimoReset s1 /\
  valorDe (ApiPet.POST (Some b)) amb s =
    if bool_decide (ApiPet.animal b = "__proto__") then
      if bool_decide (ApiPet.tipo b = "nota") && ApiPet.temTexto (ApiPet.texto b)
      then ApiPet.Lancou else ApiPet.Resp200 ApiPet.CVazio
    else if bool_decide (ApiPet.animal b ∈ ApiPet.herdadas) then ApiPet.Lancou
    else ApiPet.Resp400 "Animal inválido".
Proof.
  intros s1 Hp.
  unfold apos at 1 2, valorDe, ApiPet.POST. rewrite run_bind. fold s1.
  change ((lerPets ≫= ?f) amb s1) with (f (pets s1) amb s1).
  cbv beta. unfold ApiPet.obter. rewrite Hp.
  destruct (bool_decide (ApiPet.animal b = "__proto__")).
  - change ((novaData ≫= ?f) amb s1) with
      (f (proxima amb s1) amb {| pets := pets s1; ultimoReset := ultimoReset s1;
                                 leituras := S (leituras s1) |}).
    cbv beta.
    destruct (bool_decide (ApiPet.tipo b = "nota") && ApiPet.temTexto (ApiPet.texto b));
      auto.
  - destruct (bool_decide (ApiPet.animal b ∈ ApiPet.herdadas)); auto.
Qed.

Lemma POST_sem_json amb s :
  ApiPet.POST None amb s = (ApiPet.Resp400 "JSON inválido", apos verificarReset amb s).
Proof.
  unfold ApiPet.POST. rewrite run_bind. reflexivity.
Qed.

Lemma GET_pets amb s a :
  pets (apos (ApiPet.GET a) amb s) = pets (apos verificarReset amb s) /\
  ultimoReset (apos (ApiPet.GET a) amb s) = ultimoReset (apos verificarReset amb s).
Proof.
  unfold apos at 1 3, ApiPet.GET. rewrite run_bind.
  set (s1 := apos verificarReset amb s).
  change ((lerPets ≫= ?f) amb s1) with (f (pets s1) amb s1). cbv beta.
  destruct a as [a|]; [|auto].
  destruct (bool_decide (a = "")); [auto|].
  destruct (ApiPet.obter (pets s1) a); auto.
Qed.

Lemma servir_cons c cs amb s :
  apos (servir (c :: cs)) amb s = apos (servir cs) amb (apos (atender c) amb s).
Proof. simpl. apply apos_bind. Qed.

(** Whatever relation between the old and the new value of a record the
    reset and the three steps of POST respect, every request and every
    history of requests respects it, record by record. *)
Section Preservacao.

Variable R : pet -> pet -> Prop.
Hypothesis R_refl : forall p, R p p.
Hypothesis R_trans : forall p q r, R p q -> R q r -> R p r.
Hypothesis R_zerar : forall p, R p (zerar p).
Hypothesis R_comida : forall k t p, R p (ApiPet.registrarComida k t p).
Hypothesis R_remedio : forall k t p, R p (ApiPet.registrarRemedio k t p).
Hypothesis R_push : forall n p, R p (ApiPet.push n p).

Lemma verificarReset_preserva amb s a p :
  pets s !! a = Some p ->
  exists p', pets (apos verificarReset amb s) !! a = Some p' /\ R p p'.
Proof.
  intros Hp. unfold apos. rewrite verificarReset_eq. simpl.
  case_bool_decide; simpl.
  - rewrite lookup_fmap, Hp. simpl. eauto.
  - eauto.
Qed.

Lemma POST_preserva amb s body a p :
  pets s !! a = Some p ->
  exists p', pets (apos (ApiPet.POST body) amb s) !! a = Some p' /\ R p p'.
Proof.
  intros Hp.
  destruct (verificarReset_preserva amb s a p Hp) as (p1 & Hp1 & HR1).
  destruct body as [b|]; [|unfold apos at 1; rewrite POST_sem_json; eauto].
  destruct (pets (apos verificarReset amb s) !! ApiPet.animal b) as [q|] eqn:Hq.
  - unfold apos at 1. rewrite (POST_pet amb s b q Hq).
    destruct (decide (ApiPet.animal b = a)) as [Heq|Hne].
    + assert (q = p1) as -> by (rewrite Heq in Hq; congruence).
      rewrite Heq.
      destruct (bool_decide _ && _); simpl; rewrite lookup_insert_eq;
        eexists; split; try reflexivity; eauto 6.
    + destruct (bool_decide _ && _); simpl; rewrite lookup_insert_ne by exact Hne;
        eauto.
  - destruct (POST_sem_registro amb s b Hq) as (-> & _). eauto.
Qed.

Lemma atender_preserva amb s c a p :
  pets s !! a = Some p ->
  exists p', pets (apos (atender c) amb s) !! a = Some p' /\ R p p'.
Proof.
  destruct c as [g|body]; simpl.
  - intros Hp. destruct (GET_pets amb s g) as [-> _].
    apply verificarReset_preserva, Hp.
  - apply POST_preserva.
Qed.

Lemma servir_preserva amb cs : forall s a p,
  pets s !! a = Some p ->
  exists p', pets (apos (servir cs) amb s) !! a = Some p' /\ R p p'.
Proof.
  induction cs as [|c cs IH]; intros s a p Hp.
  - exists p. auto.
  - rewrite servir_cons.
    destruct (atender_preserva amb s c a p Hp) as (p1 & Hp1 & HR1).
    destruct (IH _ a p1 Hp1) as (p2 & Hp2 & HR2). eauto.
Qed.

End Preservacao.

(** *** Feeding *)

Lemma dentroDoLimite_servir amb cs s a p :
  pets s !! a = Some p ->
  exists p', pets (apos (servir cs) amb s) !! a = Some p' /\ dentroDoLimite p p'.
Proof.
  apply servir_preserva; unfold dentroDoLimite.
  - intros q. auto.
  - intros q1 q2 q3 [E1 H1] [E2 H2]. split; [congruence|].
    intros H0 Hle. apply H2; [rewrite E1; exact H0|apply H1; assumption].
  - intros q. split; [reflexivity|]. intros H0 _. exact H0.
  - intros k t q. unfold ApiPet.registrarComida.
    destruct (bool_decide (k = "comida") && (comida q <? maxComida q)) eqn:E; simpl; auto.
    apply andb_true_iff in E as [_ E]. apply Z.ltb_lt in E. split; [reflexivity|lia].
  - intros k t q. unfold ApiPet.registrarRemedio.
    destruct (bool_decide (k = "remedio") && temRemedio q); auto.
    destruct (ApiPet.menor (remedio q) (maxRemedio q)); simpl; auto.
  - intros n q. simpl. auto.
Qed.

Lemma registrarComida_cheio k t p :
  comida p = maxComida p -> ApiPet.registrarComida k t p = p.
Proof.
  intros H. unfold ApiPet.registrarComida.
  rewrite H, Z.ltb_irrefl, andb_false_r. reflexivity.
Qed.

Lemma registrarRemedio_outro k t p :
  k <> "remedio" -> ApiPet.registrarRemedio k t p = p.
Proof.
  intros H. unfold ApiPet.registrarRemedio.
  rewrite bool_decide_eq_false_2 by exact H. reflexivity.
Qed.

Lemma registrarComida_outro k t p :
  k <> "comida" -> ApiPet.registrarComida k t p = p.
Proof.
  intros H. unfold ApiPet.registrarComida.
  rewrite bool_decide_eq_false_2 by exact H. reflexivity.
Qed.

(** C2: after any history of requests (feedings or others) a record that
    started within its maximum has [comida <= maxComida]; and a feeding
    that finds [comida = maxComida] once the reset check has run answers
    200 with that record and leaves the store as the reset check left
    it. *)
Theorem comida_never_exceeds_maxComida amb s a p cs :
  pets s !! a = Some p ->
  0 <= maxComida p ->
  comida p <= maxComida p ->
  let sH := apos (servir cs) amb s in
  let s1 := apos verificarReset amb sH in
  (exists p', pets sH !! a = Some p' /\
              maxComida p' = maxComida p /\ comida p' <= maxComida p') /\
  (forall p1, pets s1 !! a = Some p1 -> comida p1 = maxComida p1 ->
     valorDe (ApiPet.POST (Some (pedido_comida a))) amb sH
       = ApiPet.Resp200 (ApiPet.CPet p1) /\
     pets (apos (ApiPet.POST (Some (pedido_comida a))) amb sH) = pets s1 /\
     ultimoReset (apos (ApiPet.POST (Some (pedido_comida a))) amb sH) = ultimoReset s1).
Proof.
  intros Hp H0 Hle sH s1. split.
  - destruct (dentroDoLimite_servir amb cs s a p Hp) as (p' & Hp' & E & H).
    exists p'. auto.
  - intros p1 Hp1 Hcheio.
    unfold valorDe, apos at 1 2.
    rewrite (POST_pet amb sH (pedido_comida a) p1 Hp1). simpl.
    rewrite registrarComida_cheio by exact Hcheio.
    rewrite registrarRemedio_outro by discriminate.
    simpl. fold s1. rewrite insert_id by exact Hp1. auto.
Qed.

Example tutu_fed_five_times :
  let amb := amb_teste relogio_tarde in
  comida <$> pets (apos (servir cinco_refeicoes) amb (estadoInicial amb)) !! "tutu" = Some 3 /\
  ultimoHorarioComida <$> pets (apos (servir cinco_refeicoes) amb (estadoInicial amb)) !! "tutu"
    = Some (Some (relogio_tarde 6)).
Proof. intros amb. calcula. Qed.

Lemma comida_never_exceeds_maxComida_witness :
  let amb := amb_teste relogio_tarde in
  let sH := apos (servir cinco_refeicoes) amb (estadoInicial amb) in
  let s1 := apos verificarReset amb sH in
  (exists p', pets sH !! "tutu" = Some p' /\
              maxComida p' = maxComida tutu /\ comida p' <= maxComida p') /\
  (forall p1, pets s1 !! "tutu" = Some p1 -> comida p1 = maxComida p1 ->
     valorDe (ApiPet.POST (Some (pedido_comida "tutu"))) amb sH
       = ApiPet.Resp200 (ApiPet.CPet p1) /\
     pets (apos (ApiPet.POST (Some (pedido_comida "tutu"))) amb sH) = pets s1 /\
     ultimoReset (apos (ApiPet.POST (Some (pedido_comida "tutu"))) amb sH)
       = ultimoReset s1).
Proof.
  intros amb.
  apply (comida_never_exceeds_maxComida amb (estadoInicial amb) "tutu" tutu cinco_refeicoes).
  - reflexivity.
  - simpl. lia.
  - simpl. lia.
Defined.

(** *** Medication *)

Lemma registrarRemedio_semRemedio k t p :
  temRemedio p = false -> ApiPet.registrarRemedio k t p = p.
Proof.
  intros H. unfold ApiPet.registrarRemedio. rewrite H, andb_false_r. reflexivity.
Qed.

Lemma semRemedio_preserva_relacao :
  (forall p, semRemedio p p) /\
  (forall p q r, semRemedio p q -> semRemedio q r -> semRemedio p r) /\
  (forall p, semRemedio p (zerar p)) /\
  (forall k t p, semRemedio p (ApiPet.registrarComida k t p)) /\
  (forall k t p, semRemedio p (ApiPet.registrarRemedio k t p)) /\
  (forall n p, semRemedio p (ApiPet.push n p)).
Proof.
  unfold semRemedio. repeat apply conj.
  - auto.
  - intros p q r Hpq Hqr Hp. destruct (Hpq Hp) as (Hq & E1 & E2).
    destruct (Hqr Hq) as (Hr & E3 & E4). repeat split; congruence.
  - intros p Hp. simpl. rewrite Hp. auto.
  - intros k t p Hp. unfold ApiPet.registrarComida.
    destruct (bool_decide (k = "comida") && (comida p <? maxComida p)); simpl; auto.
  - intros k t p Hp. rewrite registrarRemedio_semRemedio by exact Hp. auto.
  - intros n p Hp. simpl. auto.
Qed.

Lemma semRemedio_servir amb cs s a p :
  pets s !! a = Some p ->
  exists p', pets (apos (servir cs) amb s) !! a = Some p' /\ semRemedio p p'.
Proof.
  destruct semRemedio_preserva_relacao as (H1 & H2 & H3 & H4 & H5 & H6).
  apply servir_preserva; assumption.
Qed.

Lemma semRemedio_verificarReset amb s a p :
  pets s !! a = Some p ->
  exists p', pets (apos verificarReset amb s) !! a = Some p' /\ semRemedio p p'.
Proof.
  destruct semRemedio_preserva_relacao as (H1 & H2 & H3 & H4 & H5 & H6).
  apply verificarReset_preserva; assumption.
Qed.

Lemma classificar_semRemedio p agora :
  temRemedio p = false -> tipo (classificar p agora) <> "remedio".
Proof.
  intros H. unfold classificar. rewrite H. simpl.
  destruct (truthy (alertaSaude p)); [discriminate|].
  destruct (match ultimoHorarioComida p with Some _ => _ | None => _ end);
    discriminate.
Qed.

(** C5: take a record with [temRemedio = false] and any history of
    requests.  A "remedio" request that follows answers 200 with the
    record as the reset check left it and writes nothing to the store;
    that record still has [temRemedio = false] and the [remedio] and
    [ultimoHorarioRemedio] it had before the history; and
    [calcularStatus] never answers "remedio" for it. *)
Theorem remedio_noop_without_temRemedio amb s a p cs :
  pets s !! a = Some p ->
  temRemedio p = false ->
  let sH := apos (servir cs) amb s in
  let s1 := apos verificarReset amb sH in
  exists p1,
    pets s1 !! a = Some p1 /\
    valorDe (ApiPet.POST (Some (pedido_remedio a))) amb sH
      = ApiPet.Resp200 (ApiPet.CPet p1) /\
    pets (apos (ApiPet.POST (Some (pedido_remedio a))) amb sH) = pets s1 /\
    temRemedio p1 = false /\
    remedio p1 = remedio p /\
    ultimoHorarioRemedio p1 = ultimoHorarioRemedio p /\
    forall amb' s', tipo (valorDe (calcularStatus p1) amb' s') <> "remedio".
Proof.
  intros Hp Hsem sH s1.
  destruct (semRemedio_servir amb cs s a p Hp) as (pH & HpH & HH).
  destruct (HH Hsem) as (HsemH & E1 & E2).
  destruct (semRemedio_verificarReset amb sH a pH HpH) as (p1 & Hp1 & H1).
  destruct (H1 HsemH) as (Hsem1 & E3 & E4).
  exists p1. split; [exact Hp1|].
  unfold valorDe, apos at 1.
  rewrite (POST_pet amb sH (pedido_remedio a) p1 Hp1). simpl.
  rewrite registrarComida_outro by discriminate.
  rewrite registrarRemedio_semRemedio by exact Hsem1.
  simpl. fold s1. rewrite insert_id by exact Hp1.
  repeat split; try congruence.
  intros amb' s'. apply (classificar_semRemedio p1 (proxima amb' s')), Hsem1.
Qed.

Lemma remedio_noop_without_temRemedio_witness :
  let amb := amb_teste relogio_virada in
  let cs := replicate 2 (ChamadaPOST (Some (pedido_comida "noah"))) in
  let sH := apos (servir cs) amb (estadoInicial amb) in
  let s1 := apos verificarReset amb sH in
  exists p1,
    pets s1 !! "noah" = Some p1 /\
    valorDe (ApiPet.POST (Some (pedido_remedio "noah"))) amb sH
      = ApiPet.Resp200 (ApiPet.CPet p1) /\
    pets (apos (ApiPet.POST (Some (pedido_remedio "noah"))) amb sH) = pets s1 /\
    temRemedio p1 = false /\
    remedio p1 = remedio noah /\
    ultimoHorarioRemedio p1 = ultimoHorarioRemedio noah /\
    forall amb' s', tipo (valorDe (calcularStatus p1) amb' s') <> "remedio".
Proof.
  intros amb cs.
  apply (remedio_noop_without_temRemedio amb (estadoInicial amb) "noah" noah cs).
  - reflexivity.
  - reflexivity.
Defined.

(** *** Notes *)

(** "  oi, tutu \n" *)
Example trim_oi :
  trim [32; 32; 111; 105; 44; 32; 116; 117; 116; 117; 32; 10]%N
  = [111; 105; 44; 32; 116; 117; 116; 117]%N.
Proof. reflexivity. Qed.

(** A text of a tab, a no-break space and an ideographic space. *)
Example trim_blank : trim [9; 160; 12288]%N = [].
Proof. reflexivity. Qed.

Lemma temTexto_true t :
  ApiPet.temTexto t = true <-> exists x, t = Some x /\ trim x <> [].
Proof.
  destruct t as [x|]; simpl.
  - rewrite negb_true_iff, bool_decide_eq_false. split.
    + intros H. exists x. auto.
    + intros (y & [= <-] & H). exact H.
  - split; [discriminate|]. intros (y & [=] & _).
Qed.

Lemma temTexto_false t :
  ApiPet.temTexto t = false <-> t = None \/ exists x, t = Some x /\ trim x = [].
Proof.
  destruct t as [x|]; simpl.
  - rewrite negb_false_iff, bool_decide_eq_true. split.
    + intros H. right. exists x. auto.
    + intros [[=]|(y & [= <-] & H)]. exact H.
  - split; auto.
Qed.

Lemma verificarReset_notas amb s a p :
  pets s !! a = Some p ->
  exists p1, pets (apos verificarReset amb s) !! a = Some p1 /\ notas p1 = notas p.
Proof.
  intros Hp. pose proof (verificarReset_preservado amb s a) as H.
  rewrite Hp in H. inversion H as [? p1 Hpres E1 E2|]; subst.
  exists p1. split; [reflexivity|]. apply Hpres.
Qed.

(** What a "nota" request does to the record under its key. *)
Lemma POST_nota amb s a t p :
  pets s !! a = Some p ->
  let r := ApiPet.POST (Some (pedido_nota a t)) in
  exists p',
    pets (apos r amb s) !! a = Some p' /\
    valorDe r amb s = ApiPet.Resp200 (ApiPet.CPet p') /\
    if ApiPet.temTexto t then
      notas p' = notas p ++ [notaDe amb t (relogio amb (leituras s + 2))] /\
      leituras (apos r amb s) = (leituras s + 3)%nat
    else
      notas p' = notas p /\
      pets (apos r amb s) = pets (apos verificarReset amb s).
Proof.
  intros Hp r. subst r.
  destruct (verificarReset_notas amb s a p Hp) as (p1 & Hp1 & Hn1).
  unfold valorDe, apos at 1 2 3.
  rewrite (POST_pet amb s (pedido_nota a t) p1 Hp1).
  cbn [ApiPet.animal ApiPet.tipo ApiPet.texto pedido_nota].
  rewrite registrarComida_outro by discriminate.
  rewrite registrarRemedio_outro by discriminate.
  rewrite verificarReset_leituras.
  rewrite bool_decide_eq_true_2 by reflexivity. rewrite andb_true_l.
  destruct (ApiPet.temTexto t); cbn [fst snd pets leituras].
  - eexists. rewrite lookup_insert_eq. split; [reflexivity|]. split; [reflexivity|].
    cbn [ApiPet.push notas]. rewrite Hn1.
    replace (leituras s + 2)%nat with (S (S (leituras s))) by lia.
    split; [reflexivity|lia].
  - exists p1. rewrite lookup_insert_eq. split; [reflexivity|]. split; [reflexivity|].
    split; [exact Hn1|]. apply insert_id, Hp1.
Qed.

Lemma anotar_lista amb a ts : forall s p,
  pets s !! a = Some p ->
  Forall (fun x => trim x <> []) ts ->
  exists p',
    pets (apos (servir (anotar a <$> ts)) amb s) !! a = Some p' /\
    notas p' = notas p ++ notasDe amb (leituras s) ts.
Proof.
  induction ts as [|x ts IH]; intros s p Hp Hts.
  - exists p. simpl. rewrite app_nil_r. auto.
  - inversion Hts as [|? ? Hx Hts']; subst.
    rewrite fmap_cons, servir_cons.
    destruct (POST_nota amb s a (Some x) p Hp) as (p1 & Hp1 & _ & H1).
    assert (ApiPet.temTexto (Some x) = true) as Htem.
    { apply temTexto_true. eauto. }
    rewrite Htem in H1. destruct H1 as [Hn1 Hl1].
    destruct (IH _ p1 Hp1 Hts') as (p2 & Hp2 & Hn2).
    exists p2. split; [exact Hp2|].
    change (atender (anotar a x)) with (ApiPet.POST (Some (pedido_nota a (Some x)))) in Hn2.
    rewrite Hn2, Hn1, Hl1, <- app_assoc. reflexivity.
Qed.

Lemma GET_pet amb s a p :
  a <> "" ->
  pets s !! a = Some p ->
  exists p1,
    pets (apos verificarReset amb s) !! a = Some p1 /\
    valorDe (ApiPet.GET (Some a)) amb s = ApiPet.Resp200 (ApiPet.CPet p1) /\
    notas p1 = notas p.
Proof.
  intros Ha Hp. destruct (verificarReset_notas amb s a p Hp) as (p1 & Hp1 & Hn1).
  exists p1. split; [exact Hp1|]. split; [|exact Hn1].
  unfold valorDe, ApiPet.GET. rewrite run_bind.
  set (s1 := apos verificarReset amb s) in *.
  change ((lerPets ≫= ?f) amb s1) with (f (pets s1) amb s1). cbv beta.
  rewrite bool_decide_eq_false_2 by exact Ha.
  unfold ApiPet.obter. rewrite Hp1. reflexivity.
Qed.

Example tutu_two_notes :
  let amb := amb_teste relogio_tarde in
  let s := apos (servir (anotar "tutu" <$> [texto_oi; texto_ok])) amb (estadoInicial amb) in
  notas <$> pets s !! "tutu" =
  Some [ {| texto := [111; 105]%N; data := relogio_tarde 3 / 1000 |};
         {| texto := [111; 107]%N; data := relogio_tarde 6 / 1000 |} ].
Proof. intros amb s. calcula. Qed.

(** *** Clock readings of one POST *)

(** C4 as stated fails: a "nota" request reads the clock three times and a
    "comida" request twice, and the note is dated by another reading than
    the action timestamp [agoraISO], here one that renders differently. *)
Lemma POST_reads_clock_more_than_once :
  let amb := amb_teste relogio_segundo in
  let s := estadoInicial amb in
  let agoraISO := relogio amb (leituras s + 1) in
  let s' := apos (ApiPet.POST (Some (pedido_nota "tutu" (Some texto_ok)))) amb s in
  leituras s' = (leituras s + 3)%nat /\
  leituras (apos (ApiPet.POST (Some (pedido_comida "tutu"))) amb s) = (leituras s + 2)%nat /\
  agoraISO = Data.utc 2025 3 10 12 + 999 /\
  notas <$> pets s' !! "tutu"
    = Some [ {| texto := texto_ok;
                data := toLocaleString amb (Data.utc 2025 3 10 12 + 1000) |} ] /\
  toLocaleString amb (Data.utc 2025 3 10 12 + 1000) = toLocaleString amb agoraISO + 1.
Proof. intros amb s agoraISO s'. calcula. Qed.

(** C4, amended: a POST on a key that holds a record reads the clock once
    in the reset check, once for [agoraISO], and once more if it appends a
    note.  With [p] the record as the reset check left it and [p'] the
    record after the request: [comida] and [ultimoHorarioComida] either
    both stay or are the counter plus one and [agoraISO]; likewise
    [remedio] and [ultimoHorarioRemedio]; a feeding below the maximum and
    a medication below the maximum do take effect; and an appended note
    is dated by the rendering of the third reading. *)
Theorem POST_clock_readings amb s b p :
  let s1 := apos verificarReset amb s in
  let r := ApiPet.POST (Some b) in
  let agoraISO := relogio amb (leituras s + 1) in
  let agoraNota := relogio amb (leituras s + 2) in
  pets s1 !! ApiPet.animal b = Some p ->
  exists p',
    pets (apos r amb s) !! ApiPet.animal b = Some p' /\
    valorDe r amb s = ApiPet.Resp200 (ApiPet.CPet p') /\
    leituras (apos r amb s) =
      (if bool_decide (ApiPet.tipo b = "nota") && ApiPet.temTexto (ApiPet.texto b)
       then leituras s + 3 else leituras s + 2)%nat /\
    (comida p' = comida p /\ ultimoHorarioComida p' = ultimoHorarioComida p \/
     ApiPet.tipo b = "comida" /\
     comida p' = comida p + 1 /\ ultimoHorarioComida p' = Some agoraISO) /\
    (remedio p' = remedio p /\ ultimoHorarioRemedio p' = ultimoHorarioRemedio p \/
     ApiPet.tipo b = "remedio" /\
     remedio p' = Z.succ <$> remedio p /\ ultimoHorarioRemedio p' = Some (Some agoraISO)) /\
    (notas p' = notas p \/
     ApiPet.tipo b = "nota" /\
     notas p' = notas p ++ [{| texto := trim (default [] (ApiPet.texto b));
                               data := toLocaleString amb agoraNota |}]) /\
    (ApiPet.tipo b = "comida" -> comida p < maxComida p ->
       comida p' = comida p + 1 /\ ultimoHorarioComida p' = Some agoraISO) /\
    (ApiPet.tipo b = "remedio" -> temRemedio p = true ->
     ApiPet.menor (remedio p) (maxRemedio p) = true ->
       remedio p' = Z.succ <$> remedio p /\
       ultimoHorarioRemedio p' = Some (Some agoraISO)).
Proof.
  intros s1 r agoraISO agoraNota Hp. subst r.
  unfold valorDe, apos at 1 2.
  rewrite (POST_pet amb s b p Hp). fold s1.
  assert (leituras s1 = S (leituras s)) as Hl by apply verificarReset_leituras.
  assert (proxima amb s1 = agoraISO) as ->.
  { unfold proxima, agoraISO. rewrite Hl. f_equal. lia. }
  assert (relogio amb (S (leituras s1)) = agoraNota) as ->.
  { unfold agoraNota. rewrite Hl. f_equal. lia. }
  rewrite Hl. clear Hl.
  destruct (decide (ApiPet.tipo b = "comida")) as [Ec|Ec].
  - (* a feeding *)
    rewrite registrarRemedio_outro by (rewrite Ec; discriminate).
    rewrite (bool_decide_eq_false_2 (ApiPet.tipo b = "nota")) by (rewrite Ec; discriminate).
    cbn [andb fst snd pets leituras]. rewrite lookup_insert_eq.
    eexists. split; [reflexivity|]. split; [reflexivity|]. split; [lia|].
    unfold ApiPet.registrarComida. rewrite bool_decide_eq_true_2 by exact Ec.
    destruct (comida p <? maxComida p) eqn:E2; simpl.
    + split; [right; auto|]. split; [left; auto|]. split; [left; auto|].
      split; [auto|]. intros E. rewrite Ec in E. discriminate.
    + apply Z.ltb_ge in E2.
      split; [left; auto|]. split; [left; auto|]. split; [left; auto|].
      split; [intros _ Hlt; lia|]. intros E. rewrite Ec in E. discriminate.
  - rewrite registrarComida_outro by exact Ec.
    destruct (decide (ApiPet.tipo b = "remedio")) as [Er|Er].
    + (* a medication *)
      rewrite (bool_decide_eq_false_2 (ApiPet.tipo b = "nota")) by (rewrite Er; discriminate).
      cbn [andb fst snd pets leituras]. rewrite lookup_insert_eq.
      eexists. split; [reflexivity|]. split; [reflexivity|]. split; [lia|].
      unfold ApiPet.registrarRemedio. rewrite bool_decide_eq_true_2 by exact Er.
      destruct (temRemedio p) eqn:E2;
        [destruct (ApiPet.menor (remedio p) (maxRemedio p)) eqn:E3|]; simpl.
      * split; [left; auto|]. split; [right; auto|]. split; [left; auto|].
        split; [intros E; contradiction|]. auto.
      * split; [left; auto|]. split; [left; auto|]. split; [left; auto|].
        split; [intros E; contradiction|]. intros _ _ [=].
      * split; [left; auto|]. split; [left; auto|]. split; [left; auto|].
        split; [intros E; contradiction|]. intros _ [=].
    + rewrite registrarRemedio_outro by exact Er.
      destruct (bool_decide (ApiPet.tipo b = "nota") && ApiPet.temTexto (ApiPet.texto b)) eqn:En;
        cbn [fst snd pets leituras]; rewrite lookup_insert_eq;
        eexists; (split; [reflexivity|]); (split; [reflexivity|]); (split; [lia|]).
      * (* a note *)
        apply andb_true_iff in En as [En _]. apply bool_decide_eq_true in En.
        split; [left; auto|]. split; [left; auto|]. split; [right; auto|].
        split; intros E; contradiction.
      * split; [left; auto|]. split; [left; auto|]. split; [left; auto|].
        split; intros E; contradiction.
Qed.

Lemma POST_clock_readings_witness :
  let amb := amb_teste relogio_tarde in
  let s := estadoInicial amb in
  exists p',
    pets (apos (ApiPet.POST (Some (pedido_comida "tutu"))) amb s) !! "tutu" = Some p' /\
    leituras (apos (ApiPet.POST (Some (pedido_comida "tutu"))) amb s) = 3%nat /\
    comida p' = 1 /\
    ultimoHorarioComida p' = Some (relogio_tarde 2).
Proof.
  intros amb s.
  destruct (POST_clock_readings amb s (pedido_comida "tutu") tutu)
    as (p' & Hp' & _ & Hl & _ & _ & _ & Hc & _).
  - vm_compute. reflexivity.
  - exists p'. split; [exact Hp'|]. split; [exact Hl|].
    apply Hc; [reflexivity|simpl; lia].
Defined.

(** *** Keys without a record, and requests that change nothing *)

(** C7, the code at the failing input: no animal is called [__proto__] or
    [toString], yet [pets[animal]] finds Object.prototype and one of its
    methods there.  GET and a "comida" POST for [__proto__] answer 200
    with an empty object, a "nota" POST for it throws, and so does GET for
    [toString]; only a key that Object.prototype does not have either,
    like [rex], is answered with the 400 "Animal inválido". *)
Theorem inherited_key_is_not_reported :
  let amb := amb_teste relogio_tarde in
  let s := estadoInicial amb in
  pets s !! "__proto__" = None /\
  pets s !! "toString" = None /\
  valorDe (ApiPet.GET (Some "__proto__")) amb s = ApiPet.Resp200 ApiPet.CVazio /\
  valorDe (ApiPet.POST (Some (pedido_comida "__proto__"))) amb s
    = ApiPet.Resp200 ApiPet.CVazio /\
  valorDe (ApiPet.POST (Some (pedido_nota "__proto__" (Some texto_ok)))) amb s
    = ApiPet.Lancou /\
  valorDe (ApiPet.GET (Some "toString")) amb s = ApiPet.Lancou /\
  valorDe (ApiPet.GET (Some "rex")) amb s = ApiPet.Resp400 "Animal inválido" /\
  valorDe (ApiPet.POST (Some (pedido_comida "rex"))) amb s
    = ApiPet.Resp400 "Animal inválido".
Proof. intros amb s. calcula. Qed.

(** X2: a key that neither [pets] nor Object.prototype has is answered with
    the 400, by GET and by POST, and nothing is written. *)
Lemma chave_desconhecida amb s b :
  let s1 := apos verificarReset amb s in
  pets s1 !! ApiPet.animal b = None ->
  ApiPet.animal b <> "__proto__" ->
  ApiPet.animal b ∉ ApiPet.herdadas ->
  valorDe (ApiPet.GET (Some (ApiPet.animal b))) amb s = ApiPet.Resp400 "Animal inválido" /\
  valorDe (ApiPet.POST (Some b)) amb s = ApiPet.Resp400 "Animal inválido" /\
  pets (apos (ApiPet.POST (Some b)) amb s) = pets s1.
Proof.
  intros s1 Hn Hproto Hherd.
  destruct (POST_sem_registro amb s b Hn) as (Hpets & _ & Hv).
  rewrite bool_decide_eq_false_2 in Hv by exact Hproto.
  rewrite bool_decide_eq_false_2 in Hv by exact Hherd.
  split; [|auto].
  unfold valorDe, ApiPet.GET. rewrite run_bind. fold s1.
  change ((lerPets ≫= ?f) amb s1) with (f (pets s1) amb s1). cbv beta.
  destruct (bool_decide (ApiPet.animal b = "")); [reflexivity|].
  unfold ApiPet.obter. rewrite Hn.
  rewrite bool_decide_eq_false_2 by exact Hproto.
  rewrite bool_decide_eq_false_2 by exact Hherd. reflexivity.
Qed.

(** X3: on a key that holds a record, a request of a kind that is none of
    the three, a note without text, a feeding at the maximum and a
    medication at the maximum all answer 200 with the record as the reset
    check left it, and write nothing. *)
Lemma pedido_sem_efeito amb s b p :
  let s1 := apos verificarReset amb s in
  pets s1 !! ApiPet.animal b = Some p ->
  (ApiPet.tipo b <> "comida" /\ ApiPet.tipo b <> "remedio" /\ ApiPet.tipo b <> "nota") \/
  (ApiPet.tipo b = "nota" /\ ApiPet.temTexto (ApiPet.texto b) = false) \/
  (ApiPet.tipo b = "comida" /\ comida p = maxComida p) \/
  (ApiPet.tipo b = "remedio" /\ remedio p = maxRemedio p) ->
  valorDe (ApiPet.POST (Some b)) amb s = ApiPet.Resp200 (ApiPet.CPet p) /\
  pets (apos (ApiPet.POST (Some b)) amb s) = pets s1 /\
  ultimoReset (apos (ApiPet.POST (Some b)) amb s) = ultimoReset s1.
Proof.
  intros s1 Hp Hcaso.
  unfold valorDe, apos at 1 2. rewrite (POST_pet amb s b p Hp). fold s1.
  assert (ApiPet.registrarRemedio (ApiPet.tipo b) (proxima amb s1)
            (ApiPet.registrarComida (ApiPet.tipo b) (proxima amb s1) p) = p
          /\ bool_decide (ApiPet.tipo b = "nota") && ApiPet.temTexto (ApiPet.texto b) = false)
    as [-> ->].
  { destruct Hcaso as [(H1 & H2 & H3)|[(H1 & H2)|[(H1 & H2)|(H1 & H2)]]].
    - rewrite registrarComida_outro, registrarRemedio_outro by assumption.
      rewrite bool_decide_eq_false_2 by assumption. auto.
    - rewrite registrarComida_outro, registrarRemedio_outro by (rewrite H1; discriminate).
      rewrite H2, andb_false_r. auto.
    - rewrite registrarComida_cheio, registrarRemedio_outro
        by (assumption || (rewrite H1; discriminate)).
      rewrite bool_decide_eq_false_2 by (rewrite H1; discriminate). auto.
    - rewrite registrarComida_outro by (rewrite H1; discriminate).
      rewrite bool_decide_eq_false_2 by (rewrite H1; discriminate).
      split; [|reflexivity]. unfold ApiPet.registrarRemedio.
      destruct (bool_decide _ && _); [|reflexivity].
      rewrite H2. unfold ApiPet.menor.
      destruct (maxRemedio p); [rewrite Z.ltb_irrefl|]; reflexivity. }
  simpl. rewrite insert_id by exact Hp. auto.
Qed.

Lemma chave_desconhecida_witness :
  let amb := amb_teste relogio_tarde in
  let s := estadoInicial amb in
  valorDe (ApiPet.GET (Some "rex")) amb s = ApiPet.Resp400 "Animal inválido" /\
  valorDe (ApiPet.POST (Some (pedido_comida "rex"))) amb s
    = ApiPet.Resp400 "Animal inválido" /\
  pets (apos (ApiPet.POST (Some (pedido_comida "rex"))) amb s)
    = pets (apos verificarReset amb s).
Proof.
  intros amb s.
  apply (chave_desconhecida amb s (pedido_comida "rex")).
  - vm_compute. reflexivity.
  - discriminate.
  - refine (proj1 (bool_decide_eq_false _) _). vm_compute. reflexivity.
Defined.

Lemma pedido_sem_efeito_witness :
  let amb := amb_teste relogio_tarde in
  let s := estadoInicial amb in
  valorDe (ApiPet.POST (Some pedido_passeio)) amb s = ApiPet.Resp200 (ApiPet.CPet noah) /\
  pets (apos (ApiPet.POST (Some pedido_passeio)) amb s) = pets (apos verificarReset amb s) /\
  ultimoReset (apos (ApiPet.POST (Some pedido_passeio)) amb s)
    = ultimoReset (apos verificarReset amb s).
Proof.
  intros amb s.
  apply (pedido_sem_efeito amb s pedido_passeio noah).
  - vm_compute. reflexivity.
  - left. repeat split; discriminate.
Defined.


(** * The rest of the server: /api/status and histories over all routes *)

Lemma apos_mret {A} (a : A) amb s : apos (mret a) amb s = s.
Proof. reflexivity. Qed.

Lemma apos_descarta {A} (m : M A) amb s :
  apos (m;; mret tt) amb s = apos m amb s.
Proof. rewrite apos_bind. apply apos_mret. Qed.

Lemma calcularStatus_apos p amb s :
  pets (apos (calcularStatus p) amb s) = pets s /\
  ultimoReset (apos (calcularStatus p) amb s) = ultimoReset s /\
  leituras (apos (calcularStatus p) amb s) = S (leituras s).
Proof. unfold apos. rewrite calcularStatus_eq. auto. Qed.

Lemma percorrer_cons nome resto amb s :
  ApiStatus.percorrer (nome :: resto) amb s =
  match pets s !! nome with
  | Some p =>
      (cons (nome, classificar p (proxima amb s))
         <$> valorDe (ApiStatus.percorrer resto) amb (apos (calcularStatus p) amb s),
       apos (ApiStatus.percorrer resto) amb (apos (calcularStatus p) amb s))
  | None =>
      (None, {| pets := pets s; ultimoReset := ultimoReset s;
                leituras := S (leituras s) |})
  end.
Proof.
  cbn [ApiStatus.percorrer].
  change ((lerPets ≫= ?f) amb s) with (f (pets s) amb s). cbv beta.
  destruct (pets s !! nome) as [p|]; [|reflexivity].
  rewrite run_bind.
  change (valorDe (calcularStatus p) amb s) with (classificar p (proxima amb s)).
  rewrite run_bind. reflexivity.
Qed.

(** The traversal reads the clock and writes nothing. *)
Lemma percorrer_apos amb chaves : forall s,
  pets (apos (ApiStatus.percorrer chaves) amb s) = pets s /\
  ultimoReset (apos (ApiStatus.percorrer chaves) amb s) = ultimoReset s.
Proof.
  induction chaves as [|nome resto IH]; intros s; [auto|].
  unfold apos at 1 2. rewrite percorrer_cons.
  destruct (pets s !! nome) as [p|]; [|auto]. cbn [snd].
  destruct (IH (apos (calcularStatus p) amb s)) as [-> ->].
  destruct (calcularStatus_apos p amb s) as (-> & -> & _). auto.
Qed.

Lemma status_GET_apos amb chaves s :
  pets (apos (ApiStatus.GET chaves) amb s) = pets (apos verificarReset amb s) /\
  ultimoReset (apos (ApiStatus.GET chaves) amb s) = ultimoReset (apos verificarReset amb s).
Proof.
  unfold ApiStatus.GET. rewrite apos_bind, apos_bind, apos_mret.
  apply percorrer_apos.
Qed.

(** What the traversal returns when every key has its record: entry [i]
    is the [i]-th key with the status of its record at the [i]-th reading
    from the current one. *)
Lemma percorrer_valor amb chaves : forall s,
  Forall (fun nome => is_Some (pets s !! nome)) chaves ->
  exists resultado,
    valorDe (ApiStatus.percorrer chaves) amb s = Some resultado /\
    resultado.*1 = chaves /\
    leituras (apos (ApiStatus.percorrer chaves) amb s) = (leituras s + length chaves)%nat /\
    forall i nome, chaves !! i = Some nome ->
      exists p, pets s !! nome = Some p /\
        resultado !! i = Some (nome, classificar p (relogio amb (leituras s + i))).
Proof.
  induction chaves as [|nome resto IH]; intros s Hch.
  - exists []. split; [reflexivity|]. split; [reflexivity|].
    split; [change (leituras s = (leituras s + 0)%nat); lia|]. intros i nome [=].
  - inversion Hch as [|? ? [p Hp] Hresto]; subst.
    unfold valorDe, apos. rewrite percorrer_cons, Hp. cbn [fst snd].
    set (s1 := apos (calcularStatus p) amb s).
    destruct (calcularStatus_apos p amb s) as (Hps & _ & Hl). fold s1 in Hps, Hl.
    destruct (IH s1) as (res & Hv & Hk & Hlen & Hi).
    { rewrite Hps. exact Hresto. }
    rewrite Hv, Hlen.
    exists ((nome, classificar p (proxima amb s)) :: res).
    split; [reflexivity|]. split; [rewrite fmap_cons, Hk; reflexivity|].
    split; [rewrite Hl; simpl; lia|].
    intros [|i] k Hki; simpl in Hki.
    + injection Hki as <-. exists p. split; [exact Hp|].
      simpl. unfold proxima. rewrite Nat.add_0_r. reflexivity.
    + destruct (Hi i k Hki) as (q & Hq & Hri).
      exists q. rewrite <- Hps. split; [exact Hq|].
      simpl. rewrite Hri, Hl.
      replace (leituras s + S i)%nat with (S (leituras s) + i)%nat by lia.
      reflexivity.
Qed.

(** Every request keeps the keys of [pets]: no record is created or
    deleted. *)
Lemma verificarReset_dom amb s :
  dom (pets (apos verificarReset amb s)) = dom (pets s).
Proof.
  unfold apos. rewrite verificarReset_eq. simpl.
  case_bool_decide; simpl; [apply dom_fmap_L|reflexivity].
Qed.

Lemma POST_dom amb s body :
  dom (pets (apos (ApiPet.POST body) amb s)) = dom (pets s).
Proof.
  rewrite <- (verificarReset_dom amb s).
  destruct body as [b|]; [|unfold apos at 1; rewrite POST_sem_json; reflexivity].
  destruct (pets (apos verificarReset amb s) !! ApiPet.animal b) as [q|] eqn:Hq.
  - unfold apos at 1. rewrite (POST_pet amb s b q Hq).
    destruct (bool_decide _ && _); simpl; apply dom_insert_lookup_L; eauto.
  - destruct (POST_sem_registro amb s b Hq) as (-> & _). reflexivity.
Qed.

Lemma responder_apos chaves r amb s :
  apos (responder chaves r) amb s =
  match r with
  | PetGET a => apos (ApiPet.GET a) amb s
  | PetPOST b => apos (ApiPet.POST b) amb s
  | StatusGET => apos (ApiStatus.GET chaves) amb s
  end.
Proof. destruct r; apply apos_descarta. Qed.

Lemma historico_cons chaves r rs amb s :
  apos (historico chaves (r :: rs)) amb s
  = apos (historico chaves rs) amb (apos (responder chaves r) amb s).
Proof. simpl. apply apos_bind. Qed.

Lemma responder_dom chaves r amb s :
  dom (pets (apos (responder chaves r) amb s)) = dom (pets s).
Proof.
  rewrite responder_apos. destruct r as [a|b|].
  - destruct (GET_pets amb s a) as [-> _]. apply verificarReset_dom.
  - apply POST_dom.
  - destruct (status_GET_apos amb chaves s) as [-> _]. apply verificarReset_dom.
Qed.

Lemma historico_dom chaves amb rs : forall s,
  dom (pets (apos (historico chaves rs) amb s)) = dom (pets s).
Proof.
  induction rs as [|r rs IH]; intros s; [reflexivity|].
  rewrite historico_cons, IH. apply responder_dom.
Qed.

(** The relations that the reset and the three steps of POST respect are
    respected by every request to either route and by every history.  Of
    [push] only what POST does with it is asked: appending the note made
    of a text that trims to something. *)
Section PreservacaoHistorico.

Variable R : pet -> pet -> Prop.
Hypothesis R_refl : forall p, R p p.
Hypothesis R_trans : forall p q r, R p q -> R q r -> R p r.
Hypothesis R_zerar : forall p, R p (zerar p).
Hypothesis R_comida : forall k t p, R p (ApiPet.registrarComida k t p).
Hypothesis R_remedio : forall k t p, R p (ApiPet.registrarRemedio k t p).
Hypothesis R_nota : forall amb t agora p,
  ApiPet.temTexto t = true -> R p (ApiPet.push (notaDe amb t agora) p).

Lemma POST_respeita amb s body a p :
  pets s !! a = Some p ->
  exists p', pets (apos (ApiPet.POST body) amb s) !! a = Some p' /\ R p p'.
Proof.
  intros Hp.
  destruct (verificarReset_preserva R R_refl R_zerar amb s a p Hp) as (p1 & Hp1 & HR1).
  destruct body as [b|]; [|unfold apos at 1; rewrite POST_sem_json; eauto].
  destruct (pets (apos verificarReset amb s) !! ApiPet.animal b) as [q|] eqn:Hq.
  - unfold apos at 1. rewrite (POST_pet amb s b q Hq).
    destruct (decide (ApiPet.animal b = a)) as [Heq|Hne].
    + assert (q = p1) as -> by (rewrite Heq in Hq; congruence).
      rewrite Heq.
      destruct (bool_decide (ApiPet.tipo b = "nota") && ApiPet.temTexto (ApiPet.texto b))
        eqn:Hn; cbn [snd pets]; rewrite lookup_insert_eq;
        eexists; (split; [reflexivity|]).
      * apply andb_true_iff in Hn as [_ Hn]. eauto 6.
      * eauto 6.
    + destruct (bool_decide _ && _); cbn [snd pets];
        rewrite lookup_insert_ne by exact Hne; eauto.
  - destruct (POST_sem_registro amb s b Hq) as (-> & _). eauto.
Qed.

Lemma responder_respeita chaves amb s r a p :
  pets s !! a = Some p ->
  exists p', pets (apos (responder chaves r) amb s) !! a = Some p' /\ R p p'.
Proof.
  intros Hp. rewrite responder_apos. destruct r as [g|b|].
  - destruct (GET_pets amb s g) as [-> _].
    apply verificarReset_preserva; assumption.
  - apply POST_respeita; assumption.
  - destruct (status_GET_apos amb chaves s) as [-> _].
    apply verificarReset_preserva; assumption.
Qed.

Lemma historico_respeita chaves amb rs : forall s a p,
  pets s !! a = Some p ->
  exists p', pets (apos (historico chaves rs) amb s) !! a = Some p' /\ R p p'.
Proof.
  induction rs as [|r rs IH]; intros s a p Hp.
  - exists p. auto.
  - rewrite historico_cons.
    destruct (responder_respeita chaves amb s r a p Hp) as (p1 & Hp1 & HR1).
    destruct (IH _ a p1 Hp1) as (p2 & Hp2 & HR2). eauto.
Qed.

End PreservacaoHistorico.

(** An invariant of single records that the four steps keep is kept by
    every history. *)
Lemma historico_invariante (P : pet -> Prop) chaves amb rs s a p :
  (forall q, P q -> P (zerar q)) ->
  (forall k t q, P q -> P (ApiPet.registrarComida k t q)) ->
  (forall k t q, P q -> P (ApiPet.registrarRemedio k t q)) ->
  (forall amb' t agora q, ApiPet.temTexto t = true ->
     P q -> P (ApiPet.push (notaDe amb' t agora) q)) ->
  pets s !! a = Some p -> P p ->
  exists p', pets (apos (historico chaves rs) amb s) !! a = Some p' /\ P p'.
Proof.
  intros Hz Hc Hr Hn Hp HP.
  destruct (historico_respeita (fun q q' => P q -> P q')) with
    (chaves := chaves) (amb := amb) (rs := rs) (s := s) (a := a) (p := p)
    as (p' & Hp' & HR); auto.
  exists p'. auto.
Qed.

(** ** The reset check within one day *)

Lemma percorrer_leituras amb chaves : forall s,
  (leituras s <= leituras (apos (ApiStatus.percorrer chaves) amb s))%nat.
Proof.
  induction chaves as [|nome resto IH]; intros s.
  - change (leituras s <= leituras s)%nat. lia.
  - unfold apos at 1. rewrite percorrer_cons.
    destruct (pets s !! nome) as [p|]; cbn [snd leituras]; [|lia].
    etransitivity; [|apply IH].
    destruct (calcularStatus_apos p amb s) as (_ & _ & ->). lia.
Qed.

Lemma GET_leituras amb s a :
  leituras (apos (ApiPet.GET a) amb s) = S (leituras s).
Proof.
  rewrite <- (verificarReset_leituras amb s).
  unfold apos at 1, ApiPet.GET. rewrite run_bind.
  set (s1 := apos verificarReset amb s).
  change ((lerPets ≫= ?f) amb s1) with (f (pets s1) amb s1). cbv beta.
  destruct a as [a|]; [|reflexivity].
  destruct (bool_decide (a = "")); [reflexivity|].
  destruct (ApiPet.obter (pets s1) a); reflexivity.
Qed.

Lemma POST_sem_registro_leituras amb s b :
  let s1 := apos verificarReset amb s in
  pets s1 !! ApiPet.animal b = None ->
  (leituras s1 <= leituras (apos (ApiPet.POST (Some b)) amb s))%nat.
Proof.
  intros s1 Hp.
  unfold apos at 1, ApiPet.POST. rewrite run_bind. fold s1.
  change ((lerPets ≫= ?f) amb s1) with (f (pets s1) amb s1).
  cbv beta. unfold ApiPet.obter. rewrite Hp.
  destruct (bool_decide (ApiPet.animal b = "__proto__")).
  - change ((novaData ≫= ?f) amb s1) with
      (f (proxima amb s1) amb {| pets := pets s1; ultimoReset := ultimoReset s1;
                                 leituras := S (leituras s1) |}).
    cbv beta.
    destruct (bool_decide (ApiPet.tipo b = "nota") && ApiPet.temTexto (ApiPet.texto b));
      first [apply Nat.le_refl | apply Nat.le_succ_diag_r].
  - destruct (bool_decide (ApiPet.animal b ∈ ApiPet.herdadas));
      first [apply Nat.le_refl | apply Nat.le_succ_diag_r].
Qed.

(** Only the reset check of a request writes [ultimoReset], and it is the
    first thing a request does. *)
Lemma POST_ultimoReset amb s body :
  ultimoReset (apos (ApiPet.POST body) amb s) = ultimoReset (apos verificarReset amb s) /\
  (leituras (apos verificarReset amb s) <= leituras (apos (ApiPet.POST body) amb s))%nat.
Proof.
  destruct body as [b|].
  2: { unfold apos at 1 4. rewrite POST_sem_json. split; [reflexivity|apply Nat.le_refl]. }
  destruct (pets (apos verificarReset amb s) !! ApiPet.animal b) as [q|] eqn:Hq.
  - unfold apos at 1 4. rewrite (POST_pet amb s b q Hq).
    destruct (bool_decide _ && _); cbn [snd ultimoReset leituras]; split; auto; lia.
  - destruct (POST_sem_registro amb s b Hq) as (_ & -> & _).
    split; [reflexivity|]. apply POST_sem_registro_leituras, Hq.
Qed.

Lemma responder_ultimoReset chaves r amb s :
  ultimoReset (apos (responder chaves r) amb s) = ultimoReset (apos verificarReset amb s) /\
  (S (leituras s) <= leituras (apos (responder chaves r) amb s))%nat.
Proof.
  rewrite responder_apos, <- (verificarReset_leituras amb s). destruct r as [a|b|].
  - destruct (GET_pets amb s a) as [_ ->]. rewrite GET_leituras, verificarReset_leituras.
    auto.
  - apply POST_ultimoReset.
  - destruct (status_GET_apos amb chaves s) as [_ ->]. split; [reflexivity|].
    unfold ApiStatus.GET. rewrite apos_bind, apos_bind, apos_mret.
    apply percorrer_leituras.
Qed.

Lemma historico_leituras chaves amb rs : forall s,
  (leituras s <= leituras (apos (historico chaves rs) amb s))%nat.
Proof.
  induction rs as [|r rs IH]; intros s.
  - change (leituras s <= leituras s)%nat. lia.
  - rewrite historico_cons. etransitivity; [|apply IH].
    destruct (responder_ultimoReset chaves r amb s) as [_ H]. lia.
Qed.

Lemma historico_app chaves rs1 rs2 amb : forall s,
  apos (historico chaves (rs1 ++ rs2)) amb s
  = apos (historico chaves rs2) amb (apos (historico chaves rs1) amb s).
Proof.
  induction rs1 as [|r rs1 IH]; intros s; [reflexivity|].
  rewrite <- app_comm_cons, !historico_cons. apply IH.
Qed.

(** While every reading of the clock shows the stored day of the month,
    no request of a history changes [ultimoReset]. *)
Lemma historico_mesma_data chaves amb rs : forall s,
  (forall k, (leituras s <= k < leituras (apos (historico chaves rs) amb s))%nat ->
     getDate amb (relogio amb k) = ultimoReset s) ->
  ultimoReset (apos (historico chaves rs) amb s) = ultimoReset s.
Proof.
  induction rs as [|r rs IH]; intros s H; [reflexivity|].
  rewrite historico_cons in *.
  destruct (responder_ultimoReset chaves r amb s) as [Hu Hl].
  pose proof (historico_leituras chaves amb rs (apos (responder chaves r) amb s)) as Hm.
  destruct (verificarReset_same_date amb s) as [_ Hu'].
  { apply H. lia. }
  rewrite IH; [congruence|].
  intros k Hk. rewrite Hu, Hu'. apply H. lia.
Qed.

(** C8: after one call of [verificarReset], take any history of requests
    to the three routes and then any number of further calls, all of
    whose clock readings fall on the same local calendar day as that
    first call's.  Then the reset check that opens each request of the
    history leaves every record and [ultimoReset] as it finds them,
    whatever the requests before it have written; [ultimoReset] is still
    what the first call stored; and the further calls leave every record
    and [ultimoReset] as the history left them. *)
Theorem verificarReset_idempotent_within_day amb s chaves rs n :
  let s1 := apos verificarReset amb s in
  let s2 := apos (historico chaves rs) amb s1 in
  (forall k, (leituras s1 <= k < leituras s2 + n)%nat ->
     diaCivil amb (relogio amb k) = diaCivil amb (proxima amb s)) ->
  (forall rs1 r rs2, rs = rs1 ++ r :: rs2 ->
     let s' := apos (historico chaves rs1) amb s1 in
     pets (apos verificarReset amb s') = pets s' /\
     ultimoReset (apos verificarReset amb s') = ultimoReset s') /\
  ultimoReset s2 = ultimoReset s1 /\
  pets (apos (repetir n verificarReset) amb s2) = pets s2 /\
  ultimoReset (apos (repetir n verificarReset) amb s2) = ultimoReset s2.
Proof.
  intros s1 s2 Hday.
  assert (Hd : forall k, (leituras s1 <= k < leituras s2 + n)%nat ->
                 getDate amb (relogio amb k) = ultimoReset s1).
  { intros k Hk. unfold s1. rewrite verificarReset_ultimoReset.
    apply getDate_diaCivil, Hday, Hk. }
  assert (Hs2 : ultimoReset s2 = ultimoReset s1).
  { apply historico_mesma_data. intros k Hk. apply Hd. fold s2 in Hk. lia. }
  split; [|split; [exact Hs2|]].
  - intros rs1 r rs2 -> s'.
    assert (Hl : (S (leituras s') <= leituras s2)%nat).
    { unfold s2. rewrite historico_app. fold s'. rewrite historico_cons.
      etransitivity; [|apply historico_leituras].
      apply responder_ultimoReset. }
    pose proof (historico_leituras chaves amb rs1 s1) as Hl1. fold s' in Hl1.
    assert (Hs' : ultimoReset s' = ultimoReset s1).
    { apply historico_mesma_data. intros k Hk. apply Hd. fold s' in Hk. lia. }
    apply verificarReset_same_date. rewrite Hs'. apply Hd. lia.
  - apply (repetir_same_day amb n s2 (ultimoReset s1) Hs2).
    intros k Hk. apply Hd.
    pose proof (historico_leituras chaves amb rs s1) as Hl. fold s2 in Hl. lia.
Qed.

Lemma verificarReset_idempotent_within_day_witness :
  let amb := amb_teste relogio_dois_dias in
  let s := apos (ApiPet.POST (Some (pedido_comida "tutu"))) amb (estadoInicial amb) in
  let s1 := apos verificarReset amb s in
  let s2 := apos (historico ApiStatus.chaves_iniciais dia_de_pedidos) amb s1 in
  (comida <$> pets s !! "tutu" = Some 1 /\ ultimoReset s = 14) /\
  (comida <$> pets s1 !! "tutu" = Some 0 /\ ultimoReset s1 = 15) /\
  (comida <$> pets s2 !! "tutu" = Some 1 /\ leituras s2 = 12%nat) /\
  (forall rs1 r rs2, dia_de_pedidos = rs1 ++ r :: rs2 ->
     let s' := apos (historico ApiStatus.chaves_iniciais rs1) amb s1 in
     pets (apos verificarReset amb s') = pets s' /\
     ultimoReset (apos verificarReset amb s') = ultimoReset s') /\
  ultimoReset s2 = ultimoReset s1 /\
  pets (apos (repetir 2 verificarReset) amb s2) = pets s2 /\
  ultimoReset (apos (repetir 2 verificarReset) amb s2) = ultimoReset s2.
Proof.
  intros amb s s1 s2.
  split; [calcula|]. split; [calcula|]. split; [calcula|].
  apply (verificarReset_idempotent_within_day amb s ApiStatus.chaves_iniciais
           dia_de_pedidos 2).
  intros k Hk.
  assert (k = 4 \/ k = 5 \/ k = 6 \/ k = 7 \/ k = 8 \/ k = 9 \/ k = 10 \/
          k = 11 \/ k = 12 \/ k = 13)%nat as Hcasos.
  { assert (leituras (apos verificarReset amb s) = 4%nat) as H1 by (vm_compute; reflexivity).
    assert (leituras (apos (historico ApiStatus.chaves_iniciais dia_de_pedidos) amb
                        (apos verificarReset amb s)) = 12%nat) as H2
      by (vm_compute; reflexivity).
    rewrite H1, H2 in Hk. lia. }
  destruct Hcasos as [->|[->|[->|[->|[->|[->|[->|[->|[->| ->]]]]]]]]];
    vm_compute; reflexivity.
Defined.

(** ** Invariants of the records under every history *)

(** X4: a record that has a medication counter within [0, maxRemedio]
    keeps it there, and keeps its [maxRemedio], through every history of
    requests to the two routes. *)
Theorem remedio_never_exceeds_maxRemedio chaves amb s a p r m rs :
  pets s !! a = Some p ->
  remedio p = Some r ->
  maxRemedio p = Some m ->
  0 <= r <= m ->
  exists p' r',
    pets (apos (historico chaves rs) amb s) !! a = Some p' /\
    maxRemedio p' = Some m /\
    remedio p' = Some r' /\
    0 <= r' <= m.
Proof.
  intros Hp Hr Hm Hrm.
  destruct (historico_invariante
              (fun q => maxRemedio q = Some m /\
                        exists r', remedio q = Some r' /\ 0 <= r' <= m)
              chaves amb rs s a p) as (p' & Hp' & Hm' & r' & Hr' & Hb); auto.
  - intros q (Hqm & r' & Hqr & Hb). split; [exact Hqm|]. simpl.
    destruct (temRemedio q); [exists 0; split; [reflexivity|lia]|eauto].
  - intros k t q HP. unfold ApiPet.registrarComida.
    destruct (bool_decide (k = "comida") && (comida q <? maxComida q)); exact HP.
  - intros k t q (Hqm & r' & Hqr & Hb). unfold ApiPet.registrarRemedio.
    destruct (bool_decide (k = "remedio") && temRemedio q); [|eauto].
    destruct (ApiPet.menor (remedio q) (maxRemedio q)) eqn:Hlt; [|eauto].
    rewrite Hqm, Hqr in Hlt. simpl in Hlt. apply Z.ltb_lt in Hlt.
    split; [exact Hqm|]. exists (Z.succ r'). simpl. rewrite Hqr.
    split; [reflexivity|lia].
  - eauto.
  - exists p', r'. auto.
Qed.

Example tutu_medicated_four_times :
  let amb := amb_teste relogio_tarde in
  remedio <$> pets (apos (historico ApiStatus.chaves_iniciais quatro_remedios) amb
                      (estadoInicial amb)) !! "tutu" = Some (Some 2).
Proof. intros amb. calcula. Qed.

Lemma remedio_never_exceeds_maxRemedio_witness :
  let amb := amb_teste relogio_tarde in
  exists p' r',
    pets (apos (historico ApiStatus.chaves_iniciais quatro_remedios) amb
            (estadoInicial amb)) !! "tutu" = Some p' /\
    maxRemedio p' = Some 2 /\
    remedio p' = Some r' /\
    0 <= r' <= 2.
Proof.
  intros amb.
  apply (remedio_never_exceeds_maxRemedio ApiStatus.chaves_iniciais amb
           (estadoInicial amb) "tutu" tutu 0 2 quatro_remedios).
  - reflexivity.
  - reflexivity.
  - reflexivity.
  - lia.
Defined.

Lemma historico_estaticos chaves amb s rs a :
  option_Forall2 mesmosEstaticos
    (pets s !! a) (pets (apos (historico chaves rs) amb s) !! a).
Proof.
  destruct (pets s !! a) as [p|] eqn:Hp.
  - destruct (historico_respeita mesmosEstaticos)
      with (chaves := chaves) (amb := amb) (rs := rs) (s := s) (a := a) (p := p)
      as (p' & Hp' & HR); unfold mesmosEstaticos; auto.
    + intros q. tauto.
    + intros q1 q2 q3 H1 H2.
      destruct H1 as (?&?&?&?&?&?&?&?&?&?), H2 as (?&?&?&?&?&?&?&?&?&?).
      repeat split; congruence.
    + intros q. simpl. tauto.
    + intros k t q. unfold ApiPet.registrarComida.
      destruct (bool_decide (k = "comida") && (comida q <? maxComida q));
        simpl; tauto.
    + intros k t q. unfold ApiPet.registrarRemedio.
      destruct (bool_decide (k = "remedio") && temRemedio q); [|tauto].
      destruct (ApiPet.menor (remedio q) (maxRemedio q)); simpl; tauto.
    + intros amb' t agora q _. simpl. tauto.
    + rewrite Hp'. constructor. exact HR.
  - assert (pets (apos (historico chaves rs) amb s) !! a = None) as ->.
    { apply not_elem_of_dom. rewrite historico_dom. apply not_elem_of_dom, Hp. }
    constructor.
Qed.

(** X5: no history of requests creates or deletes a record, and none
    changes a record's descriptive attributes, its two maxima,
    [temRemedio] or [alertaSaude]. *)
Theorem historico_keeps_the_static_fields chaves amb s rs a :
  option_Forall2
    (fun p p' =>
       dataNascimento p' = dataNascimento p /\
       especie p' = especie p /\
       genero p' = genero p /\
       raca p' = raca p /\
       peso p' = peso p /\
       cor p' = cor p /\
       maxComida p' = maxComida p /\
       temRemedio p' = temRemedio p /\
       maxRemedio p' = maxRemedio p /\
       alertaSaude p' = alertaSaude p)
    (pets s !! a) (pets (apos (historico chaves rs) amb s) !! a).
Proof. exact (historico_estaticos chaves amb s rs a). Qed.

(** ** GET /api/status *)

Lemma is_Some_dom_eq (m1 m2 : gmap string pet) k :
  dom m1 = dom m2 -> is_Some (m1 !! k) -> is_Some (m2 !! k).
Proof. intros Hd H. apply elem_of_dom. rewrite <- Hd. apply elem_of_dom, H. Qed.

Lemma status_GET_eq chaves amb s :
  ApiStatus.GET chaves amb s =
  (match valorDe (ApiStatus.percorrer chaves) amb (apos verificarReset amb s) with
   | Some resultado => ApiStatus.Resp200 resultado
   | None => ApiStatus.Lancou
   end,
   apos (ApiStatus.percorrer chaves) amb (apos verificarReset amb s)).
Proof.
  unfold ApiStatus.GET. rewrite run_bind, run_bind. reflexivity.
Qed.

Lemma status_GET_valor amb s chaves :
  Forall (fun nome => is_Some (pets s !! nome)) chaves ->
  exists resultado,
    valorDe (ApiStatus.GET chaves) amb s = ApiStatus.Resp200 resultado /\
    resultado.*1 = chaves /\
    (forall i nome, chaves !! i = Some nome ->
       exists p1, pets (apos verificarReset amb s) !! nome = Some p1 /\
         resultado !! i
         = Some (nome, classificar p1 (relogio amb (leituras s + 1 + i)))) /\
    leituras (apos (ApiStatus.GET chaves) amb s) = (leituras s + 1 + length chaves)%nat.
Proof.
  intros Hch. set (s1 := apos verificarReset amb s).
  destruct (percorrer_valor amb chaves s1) as (res & Hv & Hk & Hl & Hi).
  { eapply Forall_impl; [exact Hch|]. intros k. cbv beta.
    apply is_Some_dom_eq. symmetry. apply verificarReset_dom. }
  assert (leituras s1 = S (leituras s)) as Hl1 by apply verificarReset_leituras.
  exists res. unfold valorDe at 1, apos at 1. rewrite status_GET_eq. fold s1.
  rewrite Hv. cbn [fst snd].
  split; [reflexivity|]. split; [exact Hk|]. split.
  - intros i nome Hin. destruct (Hi i nome Hin) as (p1 & Hp1 & Hr).
    exists p1. split; [exact Hp1|]. rewrite Hr, Hl1. repeat f_equal. lia.
  - rewrite Hl, Hl1. lia.
Qed.

(** X6: GET /api/status first runs the reset check and then, for each key
    of [pets] in turn, evaluates the record as the reset check left it,
    each at a clock reading of its own; the answer lists the keys in
    their order, and the request writes nothing but what the reset check
    wrote. *)
Theorem status_GET_evaluates_after_reset amb s chaves :
  Forall (fun nome => is_Some (pets s !! nome)) chaves ->
  exists resultado,
    valorDe (ApiStatus.GET chaves) amb s = ApiStatus.Resp200 resultado /\
    resultado.*1 = chaves /\
    (forall i nome, chaves !! i = Some nome ->
       exists p1, pets (apos verificarReset amb s) !! nome = Some p1 /\
         resultado !! i
         = Some (nome, classificar p1 (relogio amb (leituras s + 1 + i)))) /\
    pets (apos (ApiStatus.GET chaves) amb s) = pets (apos verificarReset amb s) /\
    ultimoReset (apos (ApiStatus.GET chaves) amb s)
      = ultimoReset (apos verificarReset amb s) /\
    leituras (apos (ApiStatus.GET chaves) amb s) = (leituras s + 1 + length chaves)%nat.
Proof.
  intros Hch.
  destruct (status_GET_valor amb s chaves Hch) as (res & Hv & Hk & Hi & Hl).
  destruct (status_GET_apos amb chaves s) as [Hp Hu].
  exists res. auto 10.
Qed.

Example status_nine_hours_later :
  let amb := amb_teste relogio_nove_horas in
  let s := apos (ApiPet.POST (Some (pedido_comida "tutu"))) amb (estadoInicial amb) in
  valorDe (ApiStatus.GET ApiStatus.chaves_iniciais) amb s
  = ApiStatus.Resp200
      [("tutu", {| tipo := "comida"; mensagem := "Alerta de comida 🚨" |});
       ("noah", {| tipo := "ok"; mensagem := "Tudo certo ✅" |})].
Proof. intros amb s. calcula. Qed.

Lemma status_GET_evaluates_after_reset_witness :
  let amb := amb_teste relogio_nove_horas in
  let s := apos (ApiPet.POST (Some (pedido_comida "tutu"))) amb (estadoInicial amb) in
  exists resultado,
    valorDe (ApiStatus.GET ApiStatus.chaves_iniciais) amb s
      = ApiStatus.Resp200 resultado /\
    resultado.*1 = ApiStatus.chaves_iniciais /\
    (forall i nome, ApiStatus.chaves_iniciais !! i = Some nome ->
       exists p1, pets (apos verificarReset amb s) !! nome = Some p1 /\
         resultado !! i
         = Some (nome, classificar p1 (relogio amb (leituras s + 1 + i)))) /\
    pets (apos (ApiStatus.GET ApiStatus.chaves_iniciais) amb s)
      = pets (apos verificarReset amb s) /\
    ultimoReset (apos (ApiStatus.GET ApiStatus.chaves_iniciais) amb s)
      = ultimoReset (apos verificarReset amb s) /\
    leituras (apos (ApiStatus.GET ApiStatus.chaves_iniciais) amb s)
      = (leituras s + 1 + length ApiStatus.chaves_iniciais)%nat.
Proof.
  intros amb s.
  apply (status_GET_evaluates_after_reset amb s ApiStatus.chaves_iniciais).
  repeat constructor; vm_compute; eauto.
Defined.

Lemma classificar_zerar p agora :
  classificar (zerar p) agora =
  if truthy (alertaSaude p)
  then {| tipo := "saude"; mensagem := "Alerta de saúde 🚨" |}
  else {| tipo := "ok"; mensagem := "Tudo certo ✅" |}.
Proof.
  unfold classificar. cbn [zerar alertaSaude ultimoHorarioComida temRemedio
                           ultimoHorarioRemedio].
  destruct (truthy (alertaSaude p)); [reflexivity|].
  destruct (temRemedio p); reflexivity.
Qed.

(** X7: a GET /api/status whose reset check finds another day of the
    month answers "ok" for every record, or "saude" for one whose
    [alertaSaude] is set: whatever was fed or given before, no "comida"
    and no "remedio" alert is reported by that request. *)
Theorem status_GET_after_reset_has_no_alert amb s chaves :
  Forall (fun nome => is_Some (pets s !! nome)) chaves ->
  getDate amb (proxima amb s) <> ultimoReset s ->
  exists resultado,
    valorDe (ApiStatus.GET chaves) amb s = ApiStatus.Resp200 resultado /\
    resultado.*1 = chaves /\
    Forall (fun e => exists p, pets s !! e.1 = Some p /\
                       tipo e.2 = if truthy (alertaSaude p) then "saude" else "ok")
           resultado.
Proof.
  intros Hch Hdate.
  destruct (status_GET_valor amb s chaves Hch) as (res & Hv & Hk & Hi & _).
  destruct (verificarReset_other_date amb s Hdate) as [Hz _].
  exists res. split; [exact Hv|]. split; [exact Hk|].
  apply Forall_lookup_2. intros i [nome st] Hri.
  assert (chaves !! i = Some nome) as Hci.
  { rewrite <- Hk, list_lookup_fmap, Hri. reflexivity. }
  destruct (Hi i nome Hci) as (p1 & Hp1 & Hr).
  rewrite Hz, lookup_fmap in Hp1.
  destruct (pets s !! nome) as [p|] eqn:Hp; [|discriminate].
  injection Hp1 as <-. rewrite Hri in Hr. injection Hr as ->.
  exists p. split; [exact Hp|]. cbn [fst snd].
  rewrite classificar_zerar. destruct (truthy (alertaSaude p)); reflexivity.
Qed.

Lemma status_GET_after_reset_has_no_alert_witness :
  let amb := amb_teste relogio_manha_seguinte in
  let s := apos (ApiPet.POST (Some (pedido_comida "tutu"))) amb (estadoInicial amb) in
  ultimoHorarioComida <$> pets s !! "tutu" = Some (Some (Data.utc 2025 3 10 20)) /\
  exists resultado,
    valorDe (ApiStatus.GET ApiStatus.chaves_iniciais) amb s
      = ApiStatus.Resp200 resultado /\
    resultado.*1 = ApiStatus.chaves_iniciais /\
    Forall (fun e => exists p, pets s !! e.1 = Some p /\
                       tipo e.2 = if truthy (alertaSaude p) then "saude" else "ok")
           resultado.
Proof.
  intros amb s. split; [vm_compute; reflexivity|].
  apply (status_GET_after_reset_has_no_alert amb s ApiStatus.chaves_iniciais).
  - repeat constructor; vm_compute; eauto.
  - vm_compute. discriminate.
Defined.

(** ** The states the server can reach *)

Lemma classificar_tipos p agora :
  (tipo (classificar p agora) = "saude" /\ alertaSaude p = Some true) \/
  (tipo (classificar p agora) = "comida" /\ alertaSaude p <> Some true) \/
  (tipo (classificar p agora) = "remedio" /\ alertaSaude p <> Some true /\
   temRemedio p = true) \/
  (tipo (classificar p agora) = "ok" /\ alertaSaude p <> Some true).
Proof.
  unfold classificar.
  destruct (truthy (alertaSaude p)) eqn:Es.
  { apply truthy_true in Es. left. auto. }
  assert (alertaSaude p <> Some true) as Hns.
  { rewrite <- truthy_true. congruence. }
  destruct (match ultimoHorarioComida p with Some _ => _ | None => _ end).
  { right. left. auto. }
  destruct (temRemedio p) eqn:Et; simpl.
  - destruct (match ultimoHorarioRemedio p with Some (Some _) => _ | _ => _ end).
    + right. right. left. auto.
    + right. right. right. auto.
  - right. right. right. auto.
Qed.

Lemma alcancavel_registro amb s a p0 :
  alcancavel amb s ->
  pets (estadoInicial amb) !! a = Some p0 ->
  exists p, pets s !! a = Some p /\ mesmosEstaticos p0 p.
Proof.
  intros [rs ->] H0.
  pose proof (historico_estaticos ApiStatus.chaves_iniciais amb
                (estadoInicial amb) rs a) as H.
  rewrite H0 in H. inversion H as [? p Hest E1 E2|]; subst. eauto.
Qed.

(** X8: in every state the server can reach from its initial store,
    GET /api/status answers 200 with exactly the entries of tutu and
    noah, in this order; neither is ever "saude" (nothing sets
    [alertaSaude]), and noah, who has no medication, is never
    "remedio". *)
Theorem status_GET_of_reachable_state amb s :
  alcancavel amb s ->
  exists st_tutu st_noah,
    valorDe (ApiStatus.GET ApiStatus.chaves_iniciais) amb s
      = ApiStatus.Resp200 [("tutu", st_tutu); ("noah", st_noah)] /\
    (tipo st_tutu = "comida" \/ tipo st_tutu = "remedio" \/ tipo st_tutu = "ok") /\
    (tipo st_noah = "comida" \/ tipo st_noah = "ok").
Proof.
  intros Halc.
  destruct (alcancavel_registro amb s "tutu" tutu Halc eq_refl) as (pt & Hpt & Het).
  destruct (alcancavel_registro amb s "noah" noah Halc eq_refl) as (pn & Hpn & Hen).
  destruct (status_GET_valor amb s ApiStatus.chaves_iniciais)
    as (res & Hv & Hk & Hi & _).
  { repeat constructor; eauto. }
  destruct (Hi 0%nat "tutu" eq_refl) as (pt1 & Hpt1 & Hr0).
  destruct (Hi 1%nat "noah" eq_refl) as (pn1 & Hpn1 & Hr1).
  destruct res as [|e0 [|e1 [|e2 res]]]; try discriminate Hk.
  simpl in Hr0, Hr1. injection Hr0 as ->. injection Hr1 as ->.
  pose proof (verificarReset_preservado amb s "tutu") as Ht.
  rewrite Hpt, Hpt1 in Ht. inversion Ht as [? ? Hpres_t|]; subst.
  pose proof (verificarReset_preservado amb s "noah") as Hn.
  rewrite Hpn, Hpn1 in Hn. inversion Hn as [? ? Hpres_n|]; subst.
  destruct Het as (_&_&_&_&_&_&_&_&_&Hat).
  destruct Hen as (_&_&_&_&_&_&_&Htn&_&Han).
  destruct Hpres_t as (_&_&_&_&_&_&_&_&_&Hat1&_).
  destruct Hpres_n as (_&_&_&_&_&_&_&Htn1&_&Han1&_).
  eexists _, _. split; [exact Hv|]. cbn [tipo].
  split.
  - destruct (classificar_tipos pt1 (relogio amb (leituras s + 1 + 0)))
      as [[_ E]|[[E _]|[[E _]|[E _]]]]; auto.
    rewrite Hat1, Hat in E. discriminate.
  - destruct (classificar_tipos pn1 (relogio amb (leituras s + 1 + 1)))
      as [[_ E]|[[E _]|[(_ & _ & E)|[E _]]]]; auto.
    + rewrite Han1, Han in E. discriminate.
    + rewrite Htn1, Htn in E. discriminate.
Qed.

Lemma status_GET_of_reachable_state_witness :
  let amb := amb_teste relogio_nove_horas in
  let s := apos (historico ApiStatus.chaves_iniciais
                   [PetPOST (Some (pedido_comida "tutu"))]) amb (estadoInicial amb) in
  exists st_tutu st_noah,
    valorDe (ApiStatus.GET ApiStatus.chaves_iniciais) amb s
      = ApiStatus.Resp200 [("tutu", st_tutu); ("noah", st_noah)] /\
    (tipo st_tutu = "comida" \/ tipo st_tutu = "remedio" \/ tipo st_tutu = "ok") /\
    (tipo st_noah = "comida" \/ tipo st_noah = "ok").
Proof.
  intros amb s.
  apply (status_GET_of_reachable_state amb s).
  exists [PetPOST (Some (pedido_comida "tutu"))]. reflexivity.
Defined.

(** X9: through every history a record has no time of last feeding
    while its feeding counter is 0 and has one once the counter is
    positive, and, if it has medication, its time of last medication is
    null while its medication counter is 0 and is a time once the counter
    is positive. *)
Theorem timestamps_agree_with_counters chaves amb s a p rs :
  pets s !! a = Some p ->
  horarioCoerente p ->
  exists p', pets (apos (historico chaves rs) amb s) !! a = Some p' /\
             horarioCoerente p'.
Proof.
  intros Hp HP.
  apply (historico_invariante horarioCoerente chaves amb rs s a p); auto;
    unfold horarioCoerente.
  - intros q (H0 & Hc & Hc' & Hm). simpl.
    split; [lia|]. split; [reflexivity|]. split; [lia|].
    intros Ht. rewrite Ht. exists 0. split; [reflexivity|].
    split; [lia|]. split; [reflexivity|lia].
  - intros k t q (H0 & Hc & Hc' & Hm). unfold ApiPet.registrarComida.
    destruct (bool_decide (k = "comida") && (comida q <? maxComida q)); [|auto].
    simpl. split; [lia|]. split; [lia|]. split; [eauto|exact Hm].
  - intros k t q (H0 & Hc & Hc' & Hm). unfold ApiPet.registrarRemedio.
    destruct (bool_decide (k = "remedio") && temRemedio q) eqn:E; [|auto].
    destruct (ApiPet.menor (remedio q) (maxRemedio q)) eqn:Hlt; [|auto].
    apply andb_true_iff in E as [_ Ht].
    destruct (Hm Ht) as (r & Hr & Hr0 & _).
    simpl. split; [exact H0|]. split; [exact Hc|]. split; [exact Hc'|].
    intros _. exists (Z.succ r). rewrite Hr. split; [reflexivity|].
    split; [lia|]. split; [lia|eauto].
Qed.

Example tutu_medicated_has_a_time :
  let amb := amb_teste relogio_tarde in
  let s := apos (historico ApiStatus.chaves_iniciais quatro_remedios) amb
             (estadoInicial amb) in
  remedio <$> pets s !! "tutu" = Some (Some 2) /\
  ultimoHorarioRemedio <$> pets s !! "tutu" = Some (Some (Some (relogio_tarde 4))).
Proof. intros amb s. calcula. Qed.

Lemma timestamps_agree_with_counters_witness :
  let amb := amb_teste relogio_tarde in
  exists p', pets (apos (historico ApiStatus.chaves_iniciais quatro_remedios) amb
                     (estadoInicial amb)) !! "tutu" = Some p' /\
             horarioCoerente p'.
Proof.
  intros amb.
  apply (timestamps_agree_with_counters ApiStatus.chaves_iniciais amb
           (estadoInicial amb) "tutu" tutu quatro_remedios).
  - reflexivity.
  - unfold horarioCoerente. simpl. split; [lia|]. split; [reflexivity|].
    split; [lia|].
    intros _. exists 0. split; [reflexivity|]. split; [lia|].
    split; [reflexivity|lia].
Defined.

(** ** What a stored note looks like *)

Lemma trimStart_head s c : head (trimStart s) = Some c -> espaco c = false.
Proof.
  induction s as [|d s IH]; simpl; [discriminate|].
  destruct (espaco d) eqn:E; [exact IH|]. simpl. congruence.
Qed.

Lemma trimStart_decomp s : exists pre, s = pre ++ trimStart s.
Proof.
  induction s as [|d s [pre IH]]; simpl; [exists []; reflexivity|].
  destruct (espaco d).
  - exists (d :: pre). simpl. congruence.
  - exists []. reflexivity.
Qed.

Lemma head_rev {A} (l : list A) : head (rev l) = last l.
Proof.
  induction l as [|x l IH] using rev_ind; [reflexivity|].
  rewrite rev_app_distr, last_snoc. reflexivity.
Qed.

Lemma last_rev {A} (l : list A) : last (rev l) = head l.
Proof. rewrite <- head_rev, rev_involutive. reflexivity. Qed.

(** What [trim] returns neither starts nor ends with white space. *)
Lemma trim_extremos x c :
  head (trim x) = Some c \/ last (trim x) = Some c -> espaco c = false.
Proof.
  unfold trim.
  set (y := trimStart x). set (z := trimStart (rev y)).
  intros [H|H].
  - destruct (trimStart_decomp (rev y)) as [pre Hpre]. fold z in Hpre.
    assert (y = rev z ++ rev pre) as Hy.
    { rewrite <- rev_app_distr, <- Hpre, rev_involutive. reflexivity. }
    apply (trimStart_head x). fold y. rewrite Hy.
    destruct (rev z) as [|d l]; [discriminate|]. exact H.
  - rewrite last_rev in H. exact (trimStart_head (rev y) c H).
Qed.

(** X10: if every note of a record has a text that is not empty and has
    no white space at either end, that is still so after every history
    of requests: POST stores no other texts. *)
Theorem stored_notes_are_trimmed chaves amb s a p rs :
  pets s !! a = Some p ->
  Forall (fun n => aparado (texto n)) (notas p) ->
  exists p', pets (apos (historico chaves rs) amb s) !! a = Some p' /\
             Forall (fun n => aparado (texto n)) (notas p').
Proof.
  intros Hp HP.
  apply (historico_invariante
           (fun q => Forall (fun n => aparado (texto n)) (notas q))
           chaves amb rs s a p); auto.
  - intros k t q HQ. unfold ApiPet.registrarComida.
    destruct (bool_decide (k = "comida") && (comida q <? maxComida q)); exact HQ.
  - intros k t q HQ. unfold ApiPet.registrarRemedio.
    destruct (bool_decide (k = "remedio") && temRemedio q); [|exact HQ].
    destruct (ApiPet.menor (remedio q) (maxRemedio q)); exact HQ.
  - intros amb' t agora q Ht HQ. cbn [ApiPet.push notas].
    apply Forall_app. split; [exact HQ|]. constructor; [|constructor].
    apply temTexto_true in Ht as (x & -> & Hx).
    cbn [notaDe texto default]. unfold aparado. split; [exact Hx|].
    split; intros c Hc; apply (trim_extremos x c); auto.
Qed.

Example tutu_notes_with_blanks :
  let amb := amb_teste relogio_tarde in
  map texto <$> (notas <$> pets (apos (historico ApiStatus.chaves_iniciais
                                         notas_com_espacos) amb
                                   (estadoInicial amb)) !! "tutu")
  = Some [[111; 105]%N; [111; 107]%N].
Proof. intros amb. calcula. Qed.

Lemma stored_notes_are_trimmed_witness :
  let amb := amb_teste relogio_tarde in
  exists p', pets (apos (historico ApiStatus.chaves_iniciais notas_com_espacos) amb
                     (estadoInicial amb)) !! "tutu" = Some p' /\
             Forall (fun n => aparado (texto n)) (notas p').
Proof.
  intros amb.
  apply (stored_notes_are_trimmed ApiStatus.chaves_iniciais amb
           (estadoInicial amb) "tutu" tutu notas_com_espacos).
  - reflexivity.
  - simpl. constructor.
Defined.

(** ** Notes: what is appended, and what stays *)

Lemma trimStart_brancos antes l : brancos antes -> trimStart (antes ++ l) = trimStart l.
Proof.
  unfold brancos. induction 1 as [|c antes Hc _ IH]; simpl; [reflexivity|].
  rewrite Hc. exact IH.
Qed.

Lemma trimStart_so_brancos l : brancos l -> trimStart l = [].
Proof.
  intros H. rewrite <- (app_nil_r l), (trimStart_brancos l [] H). reflexivity.
Qed.

Lemma trimStart_fixo l :
  (forall c, head l = Some c -> espaco c = false) -> trimStart l = l.
Proof.
  destruct l as [|c l]; intros H; simpl; [reflexivity|].
  rewrite (H c eq_refl). reflexivity.
Qed.

Lemma brancos_rev l : brancos l -> brancos (rev l).
Proof. unfold brancos. apply List.Forall_rev. Qed.

Lemma trimStart_decomp_brancos s :
  exists antes, s = antes ++ trimStart s /\ brancos antes.
Proof.
  induction s as [|d s (antes & IH & Hb)]; simpl.
  - exists []. split; [reflexivity|constructor].
  - destruct (espaco d) eqn:E.
    + exists (d :: antes). split; [simpl; congruence|constructor; assumption].
    + exists []. split; [reflexivity|constructor].
Qed.

(** [trim] removes the white space around a text, and nothing else does:
    the text without the white space around it is unique. *)
Lemma trim_semBrancosEmVolta x : semBrancosEmVolta x (trim x).
Proof.
  unfold trim. set (y := trimStart x). set (z := trimStart (rev y)).
  destruct (trimStart_decomp_brancos x) as (antes & Hx & Hantes). fold y in Hx.
  destruct (trimStart_decomp_brancos (rev y)) as (fim & Hy & Hfim). fold z in Hy.
  exists antes, (rev fim). split.
  - transitivity (antes ++ y); [exact Hx|]. f_equal.
    rewrite <- rev_app_distr, <- Hy, rev_involutive. reflexivity.
  - split; [exact Hantes|]. split; [apply brancos_rev, Hfim|].
    split; intros c Hc; apply (trim_extremos x c); auto.
Qed.

Lemma semBrancosEmVolta_trim x y : semBrancosEmVolta x y -> trim x = y.
Proof.
  intros (antes & depois & -> & Hantes & Hdepois & Hh & Hl). unfold trim.
  rewrite trimStart_brancos by exact Hantes.
  destruct y as [|c y'].
  - simpl. rewrite (trimStart_so_brancos depois Hdepois). reflexivity.
  - rewrite (trimStart_fixo ((c :: y') ++ depois))
      by (intros d Hd; apply Hh; exact Hd).
    rewrite rev_app_distr, trimStart_brancos by (apply brancos_rev, Hdepois).
    rewrite trimStart_fixo; [apply rev_involutive|].
    intros d Hd. apply Hl. rewrite <- head_rev. exact Hd.
Qed.

Lemma brancos_trim x : brancos x -> trim x = [].
Proof.
  intros H. apply semBrancosEmVolta_trim. exists x, [].
  split; [rewrite app_nil_r; reflexivity|].
  split; [exact H|]. split; [constructor|].
  split; intros c [=].
Qed.

(** Every text is white space alone, or has a text that is not empty left
    when the white space around it is taken away. *)
Lemma brancos_ou_texto x :
  brancos x \/ exists y, semBrancosEmVolta x y /\ y <> [].
Proof.
  pose proof (trim_semBrancosEmVolta x) as H.
  destruct (trim x) as [|c y] eqn:E.
  - left. destruct H as (antes & depois & -> & Hantes & Hdepois & _).
    unfold brancos in *. apply Forall_app. auto.
  - right. exists (c :: y). split; [exact H|discriminate].
Qed.

Lemma notasDe_entradas amb xs ys :
  Forall2 semBrancosEmVolta xs ys ->
  forall k, notasDe amb k xs = entradas amb k ys.
Proof.
  induction 1 as [|x y xs ys Hxy _ IH]; intros k; [reflexivity|].
  simpl. unfold notaDe at 1. simpl.
  rewrite (semBrancosEmVolta_trim x y Hxy), IH. reflexivity.
Qed.

Lemma notas_prefix_historico chaves amb rs s a p :
  pets s !! a = Some p ->
  exists p', pets (apos (historico chaves rs) amb s) !! a = Some p' /\
             notas p `prefix_of` notas p'.
Proof.
  apply (historico_respeita (fun p p' => notas p `prefix_of` notas p')).
  - intros q. reflexivity.
  - intros q1 q2 q3 H1 H2. etransitivity; eassumption.
  - intros q. reflexivity.
  - intros k t q. unfold ApiPet.registrarComida.
    destruct (bool_decide (k = "comida") && (comida q <? maxComida q)); reflexivity.
  - intros k t q. unfold ApiPet.registrarRemedio.
    destruct (bool_decide (k = "remedio") && temRemedio q); [|reflexivity].
    destruct (ApiPet.menor (remedio q) (maxRemedio q)); reflexivity.
  - intros amb' t agora q _. simpl. apply prefix_app_r. reflexivity.
Qed.

(** C6: for a record under a key [a], with the white space around a text
    told by [espaco] alone:
    - every text is white space alone or leaves a text that is not empty
      when the white space around it is taken away;
    - a "nota" request whose text leaves [y], not empty, answers 200 with
      the record, whose notes are the old ones followed by one entry
      holding [y] and the rendering of the clock reading taken when it
      is pushed;
    - a "nota" request whose text is absent, empty or white space alone
      answers 200 with the record and the old notes, and writes nothing;
    - after any history of requests to the three routes the old notes
      are a prefix of the notes: no request deletes or changes an entry;
    - after N such notes, GET answers the record with the old notes
      followed by exactly those N entries, in the order sent. *)
Theorem notas_append_only amb s a p :
  pets s !! a = Some p ->
  a <> "" ->
  (forall x, brancos x \/ exists y, semBrancosEmVolta x y /\ y <> []) /\
  (forall x y, semBrancosEmVolta x y -> y <> [] ->
     exists p',
       pets (apos (ApiPet.POST (Some (pedido_nota a (Some x)))) amb s) !! a = Some p' /\
       valorDe (ApiPet.POST (Some (pedido_nota a (Some x)))) amb s
         = ApiPet.Resp200 (ApiPet.CPet p') /\
       notas p' = notas p ++ [{| texto := y;
                                 data := toLocaleString amb (relogio amb (leituras s + 2)) |}]) /\
  (forall t, t = None \/ (exists x, t = Some x /\ brancos x) ->
     exists p',
       pets (apos (ApiPet.POST (Some (pedido_nota a t))) amb s) !! a = Some p' /\
       valorDe (ApiPet.POST (Some (pedido_nota a t))) amb s
         = ApiPet.Resp200 (ApiPet.CPet p') /\
       notas p' = notas p /\
       pets (apos (ApiPet.POST (Some (pedido_nota a t))) amb s)
         = pets (apos verificarReset amb s)) /\
  (forall chaves rs, exists p',
     pets (apos (historico chaves rs) amb s) !! a = Some p' /\
     notas p `prefix_of` notas p') /\
  (forall xs ys, Forall2 semBrancosEmVolta xs ys -> Forall (fun y => y <> []) ys ->
     exists p',
       valorDe (ApiPet.GET (Some a)) amb (apos (servir (anotar a <$> xs)) amb s)
         = ApiPet.Resp200 (ApiPet.CPet p') /\
       notas p' = notas p ++ entradas amb (leituras s) ys).
Proof.
  intros Hp Ha. repeat apply conj.
  - exact brancos_ou_texto.
  - intros x y Hxy Hy.
    destruct (POST_nota amb s a (Some x) p Hp) as (p' & Hp' & Hv & H).
    pose proof (semBrancosEmVolta_trim x y Hxy) as Htrim.
    assert (ApiPet.temTexto (Some x) = true) as Htem.
    { apply temTexto_true. exists x. split; [reflexivity|]. rewrite Htrim. exact Hy. }
    rewrite Htem in H. destruct H as [Hn _]. exists p'.
    split; [exact Hp'|]. split; [exact Hv|].
    rewrite Hn. unfold notaDe. simpl. rewrite Htrim. reflexivity.
  - intros t Ht.
    destruct (POST_nota amb s a t p Hp) as (p' & Hp' & Hv & H).
    assert (ApiPet.temTexto t = false) as Htem.
    { apply temTexto_false. destruct Ht as [->|(x & -> & Hx)]; [auto|].
      right. exists x. split; [reflexivity|]. apply brancos_trim, Hx. }
    rewrite Htem in H. destruct H as [Hn Hs].
    exists p'. auto.
  - intros chaves rs. apply notas_prefix_historico, Hp.
  - intros xs ys Hxs Hys.
    assert (Forall (fun x => trim x <> []) xs) as Hts.
    { clear -Hxs Hys. induction Hxs as [|x y xs ys Hxy _ IH]; [constructor|].
      inversion Hys as [|? ? Hy Hys']; subst. constructor; [|apply IH, Hys'].
      rewrite (semBrancosEmVolta_trim x y Hxy). exact Hy. }
    destruct (anotar_lista amb a xs s p Hp Hts) as (p1 & Hp1 & Hn1).
    destruct (GET_pet amb _ a p1 Ha Hp1) as (p2 & _ & Hv & Hn2).
    exists p2. split; [exact Hv|].
    rewrite Hn2, Hn1, (notasDe_entradas amb xs ys Hxs). reflexivity.
Qed.

(** "  oi " is "oi" between two blanks and one. *)
Example texto_oi_sem_brancos : semBrancosEmVolta texto_oi [111; 105]%N.
Proof.
  exists [32; 32]%N, [32]%N. split; [reflexivity|].
  split; [repeat constructor|]. split; [repeat constructor|].
  split; intros c [= <-]; reflexivity.
Qed.

Lemma notas_append_only_witness :
  let amb := amb_teste relogio_tarde in
  let s := estadoInicial amb in
  (forall x, brancos x \/ exists y, semBrancosEmVolta x y /\ y <> []) /\
  (forall x y, semBrancosEmVolta x y -> y <> [] ->
     exists p',
       pets (apos (ApiPet.POST (Some (pedido_nota "tutu" (Some x)))) amb s) !! "tutu" = Some p' /\
       valorDe (ApiPet.POST (Some (pedido_nota "tutu" (Some x)))) amb s
         = ApiPet.Resp200 (ApiPet.CPet p') /\
       notas p' = notas tutu ++ [{| texto := y;
                                    data := toLocaleString amb (relogio amb (leituras s + 2)) |}]) /\
  (forall t, t = None \/ (exists x, t = Some x /\ brancos x) ->
     exists p',
       pets (apos (ApiPet.POST (Some (pedido_nota "tutu" t))) amb s) !! "tutu" = Some p' /\
       valorDe (ApiPet.POST (Some (pedido_nota "tutu" t))) amb s
         = ApiPet.Resp200 (ApiPet.CPet p') /\
       notas p' = notas tutu /\
       pets (apos (ApiPet.POST (Some (pedido_nota "tutu" t))) amb s)
         = pets (apos verificarReset amb s)) /\
  (forall chaves rs, exists p',
     pets (apos (historico chaves rs) amb s) !! "tutu" = Some p' /\
     notas tutu `prefix_of` notas p') /\
  (forall xs ys, Forall2 semBrancosEmVolta xs ys -> Forall (fun y => y <> []) ys ->
     exists p',
       valorDe (ApiPet.GET (Some "tutu")) amb (apos (servir (anotar "tutu" <$> xs)) amb s)
         = ApiPet.Resp200 (ApiPet.CPet p') /\
       notas p' = notas tutu ++ entradas amb (leituras s) ys).
Proof.
  intros amb s.
  apply (notas_append_only amb s "tutu" tutu).
  - reflexivity.
  - discriminate.
Defined.

(** ** What one request leaves alone, and reading back what was written *)

(** X11: a POST for one animal leaves the record of every other key as
    the reset check left it, whatever its body asks for. *)
Theorem POST_touches_one_record amb s b a :
  a <> ApiPet.animal b ->
  pets (apos (ApiPet.POST (Some b)) amb s) !! a
  = pets (apos verificarReset amb s) !! a.
Proof.
  intros Hne.
  destruct (pets (apos verificarReset amb s) !! ApiPet.animal b) as [q|] eqn:Hq.
  - unfold apos at 1. rewrite (POST_pet amb s b q Hq).
    destruct (bool_decide _ && _); cbn [snd pets];
      apply lookup_insert_ne; congruence.
  - destruct (POST_sem_registro amb s b Hq) as (-> & _). reflexivity.
Qed.

Lemma POST_touches_one_record_witness :
  let amb := amb_teste relogio_tarde in
  pets (apos (ApiPet.POST (Some (pedido_comida "tutu"))) amb (estadoInicial amb)) !! "noah"
  = pets (apos verificarReset amb (estadoInicial amb)) !! "noah".
Proof.
  intros amb.
  apply (POST_touches_one_record amb (estadoInicial amb) (pedido_comida "tutu") "noah").
  discriminate.
Defined.

Lemma POST_200_pet amb s b p' :
  valorDe (ApiPet.POST (Some b)) amb s = ApiPet.Resp200 (ApiPet.CPet p') ->
  pets (apos (ApiPet.POST (Some b)) amb s) !! ApiPet.animal b = Some p'.
Proof.
  intros Hv.
  destruct (pets (apos verificarReset amb s) !! ApiPet.animal b) as [q|] eqn:Hq.
  - unfold valorDe in Hv. unfold apos at 1.
    rewrite (POST_pet amb s b q Hq) in *.
    destruct (bool_decide _ && _); cbn [fst snd pets] in *;
      injection Hv as <-; apply lookup_insert_eq.
  - destruct (POST_sem_registro amb s b Hq) as (_ & _ & Hr).
    rewrite Hv in Hr.
    destruct (bool_decide (ApiPet.animal b = "__proto__")).
    + destruct (bool_decide _ && _); discriminate.
    + destruct (bool_decide (ApiPet.animal b ∈ ApiPet.herdadas)); discriminate.
Qed.

(** X12: the record a POST answers with is the record stored under its
    key; a GET for that key that follows answers with the same record
    when its reset check finds the stored day of the month, and with
    that record reset when it finds another; the GET itself writes
    nothing but what its reset check writes. *)
Theorem GET_reads_back_what_POST_wrote amb s b p' :
  ApiPet.animal b <> "" ->
  valorDe (ApiPet.POST (Some b)) amb s = ApiPet.Resp200 (ApiPet.CPet p') ->
  let s' := apos (ApiPet.POST (Some b)) amb s in
  pets s' !! ApiPet.animal b = Some p' /\
  valorDe (ApiPet.GET (Some (ApiPet.animal b))) amb s'
    = ApiPet.Resp200 (ApiPet.CPet
        (if bool_decide (getDate amb (proxima amb s') = ultimoReset s')
         then p' else zerar p')) /\
  pets (apos (ApiPet.GET (Some (ApiPet.animal b))) amb s')
    = pets (apos verificarReset amb s').
Proof.
  intros Ha Hv s'.
  assert (pets s' !! ApiPet.animal b = Some p') as Hp' by exact (POST_200_pet amb s b p' Hv).
  split; [exact Hp'|]. split; [|apply GET_pets].
  assert (pets (apos verificarReset amb s') !! ApiPet.animal b
          = Some (if bool_decide (getDate amb (proxima amb s') = ultimoReset s')
                  then p' else zerar p')) as Hp1.
  { case_bool_decide as Hd.
    - destruct (verificarReset_same_date amb s' Hd) as [-> _]. exact Hp'.
    - destruct (verificarReset_other_date amb s' Hd) as [-> _].
      rewrite lookup_fmap, Hp'. reflexivity. }
  unfold valorDe, ApiPet.GET. rewrite run_bind.
  set (s1 := apos verificarReset amb s') in *.
  change ((lerPets ≫= ?f) amb s1) with (f (pets s1) amb s1). cbv beta.
  rewrite bool_decide_eq_false_2 by exact Ha.
  unfold ApiPet.obter. rewrite Hp1. reflexivity.
Qed.

Lemma GET_reads_back_what_POST_wrote_witness :
  let amb := amb_teste relogio_tarde in
  let s' := apos (ApiPet.POST (Some (pedido_comida "tutu"))) amb (estadoInicial amb) in
  let p' := ApiPet.registrarComida "comida" (relogio_tarde 2) tutu in
  pets s' !! "tutu" = Some p' /\
  valorDe (ApiPet.GET (Some "tutu")) amb s'
    = ApiPet.Resp200 (ApiPet.CPet
        (if bool_decide (getDate amb (proxima amb s') = ultimoReset s')
         then p' else zerar p')) /\
  pets (apos (ApiPet.GET (Some "tutu")) amb s') = pets (apos verificarReset amb s').
Proof.
  intros amb s' p'.
  apply (GET_reads_back_what_POST_wrote amb (estadoInicial amb)
           (pedido_comida "tutu") p').
  - discriminate.
  - vm_compute. reflexivity.
Defined.

(** ** Feeding several times in a row, and the food alert *)

Lemma POST_comida_mesma_data amb s a p :
  pets s !! a = Some p ->
  getDate amb (proxima amb s) = ultimoReset s ->
  let s' := apos (ApiPet.POST (Some (pedido_comida a))) amb s in
  pets s' !! a
    = Some (ApiPet.registrarComida "comida" (relogio amb (leituras s + 1)) p) /\
  ultimoReset s' = ultimoReset s /\
  leituras s' = (leituras s + 2)%nat.
Proof.
  intros Hp Hd s'. subst s'.
  destruct (verificarReset_same_date amb s Hd) as [Hps Hu].
  pose proof (verificarReset_leituras amb s) as Hl.
  assert (pets (apos verificarReset amb s) !! ApiPet.animal (pedido_comida a) = Some p)
    as Hp1 by (rewrite Hps; exact Hp).
  unfold apos at 1 2 3. rewrite (POST_pet amb s (pedido_comida a) p Hp1).
  cbn [ApiPet.animal ApiPet.tipo ApiPet.texto pedido_comida].
  rewrite registrarRemedio_outro by discriminate.
  rewrite (bool_decide_eq_false_2 ("comida" = "nota")) by discriminate.
  cbn [andb snd pets ultimoReset leituras].
  rewrite lookup_insert_eq, Hu, Hl. unfold proxima. rewrite Hl.
  replace (leituras s + 1)%nat with (S (leituras s)) by lia.
  repeat split. lia.
Qed.

Lemma registrarComida_contador t p :
  comida p <= maxComida p ->
  let p' := ApiPet.registrarComida "comida" t p in
  comida p' = Z.min (comida p + 1) (maxComida p) /\ maxComida p' = maxComida p.
Proof.
  intros H p'. subst p'. unfold ApiPet.registrarComida.
  rewrite bool_decide_eq_true_2 by reflexivity. cbn [andb].
  destruct (comida p <? maxComida p) eqn:E;
    [apply Z.ltb_lt in E|apply Z.ltb_ge in E]; simpl; split; lia.
Qed.

(** X17: [n] feedings of one animal in a row, each finding the stored day
    of the month, leave its counter at [comida + n], or at [maxComida]
    if that is less: every feeding below the maximum counts one, the
    others count nothing. *)
Theorem n_feedings_count_up_to_the_maximum chaves amb n : forall s a p,
  pets s !! a = Some p ->
  comida p <= maxComida p ->
  (forall k, (k < n)%nat ->
     getDate amb (relogio amb (leituras s + 2 * k)) = ultimoReset s) ->
  exists p',
    pets (apos (historico chaves (replicate n (PetPOST (Some (pedido_comida a)))))
            amb s) !! a = Some p' /\
    comida p' = Z.min (comida p + Z.of_nat n) (maxComida p) /\
    maxComida p' = maxComida p.
Proof.
  induction n as [|n IH]; intros s a p Hp Hle Hd.
  - exists p. split; [exact Hp|]. split; [simpl; lia|reflexivity].
  - cbn [replicate]. rewrite historico_cons, responder_apos.
    assert (getDate amb (proxima amb s) = ultimoReset s) as Hd0.
    { unfold proxima. rewrite <- (Hd 0%nat) by lia. f_equal. f_equal. lia. }
    destruct (POST_comida_mesma_data amb s a p Hp Hd0) as (Hp1 & Hu1 & Hl1).
    destruct (registrarComida_contador (relogio amb (leituras s + 1)) p Hle)
      as [Hc1 Hm1].
    destruct (IH _ a _ Hp1) as (p' & Hp' & Hc' & Hm').
    + lia.
    + intros k Hk. rewrite Hl1, Hu1. rewrite <- (Hd (S k)) by lia.
      f_equal. f_equal. lia.
    + exists p'. split; [exact Hp'|]. rewrite Hc', Hm', Hc1, Hm1. split; lia.
Qed.

Lemma n_feedings_count_up_to_the_maximum_witness :
  let amb := amb_teste relogio_tarde in
  exists p',
    pets (apos (historico ApiStatus.chaves_iniciais
                  (replicate 5 (PetPOST (Some (pedido_comida "noah")))))
            amb (estadoInicial amb)) !! "noah" = Some p' /\
    comida p' = Z.min (comida noah + Z.of_nat 5) (maxComida noah) /\
    maxComida p' = maxComida noah.
Proof.
  intros amb.
  apply (n_feedings_count_up_to_the_maximum ApiStatus.chaves_iniciais amb 5
           (estadoInicial amb) "noah" noah).
  - reflexivity.
  - simpl. lia.
  - intros k Hk.
    destruct k as [|[|[|[|[|k]]]]]; [vm_compute; reflexivity ..|lia].
Defined.

(** X18: a feeding below the maximum stores its own time, so the record
    is not "comida" during the eight hours that follow it; a feeding at
    the maximum stores nothing, so a record that is "comida" stays
    "comida" after it, at that time and at any later one. *)
Theorem feeding_and_the_food_alert amb s a p :
  let agoraISO := relogio amb (leituras s + 1) in
  pets (apos verificarReset amb s) !! a = Some p ->
  exists p',
    pets (apos (ApiPet.POST (Some (pedido_comida a))) amb s) !! a = Some p' /\
    (comida p < maxComida p ->
       forall agora, agora - agoraISO < 8 * msPorHora ->
         tipo (classificar p' agora) <> "comida") /\
    (maxComida p <= comida p ->
       p' = p /\
       forall agora agora', agora <= agora' ->
         tipo (classificar p agora) = "comida" ->
         tipo (classificar p' agora') = "comida").
Proof.
  intros agoraISO Hp.
  unfold apos at 1.
  assert (pets (apos verificarReset amb s) !! ApiPet.animal (pedido_comida a) = Some p)
    as Hp1 by exact Hp.
  rewrite (POST_pet amb s (pedido_comida a) p Hp1).
  cbn [ApiPet.animal ApiPet.tipo ApiPet.texto pedido_comida].
  rewrite registrarRemedio_outro by discriminate.
  rewrite (bool_decide_eq_false_2 ("comida" = "nota")) by discriminate.
  cbn [andb snd pets]. rewrite lookup_insert_eq.
  assert (proxima amb (apos verificarReset amb s) = agoraISO) as ->.
  { unfold proxima, agoraISO. rewrite verificarReset_leituras. f_equal. lia. }
  eexists. split; [reflexivity|]. split.
  - intros Hlt agora Hcedo Hc.
    apply (classificar_cases _ agora) in Hc as (_ & t & Ht & Hvenc).
    unfold ApiPet.registrarComida in Ht.
    rewrite bool_decide_eq_true_2 in Ht by reflexivity.
    apply Z.ltb_lt in Hlt. rewrite Hlt in Ht. simpl in Ht.
    injection Ht as <-. lia.
  - intros Hge.
    assert (ApiPet.registrarComida "comida" agoraISO p = p) as ->.
    { unfold ApiPet.registrarComida.
      apply Z.ltb_ge in Hge. rewrite Hge, andb_false_r. reflexivity. }
    split; [reflexivity|].
    intros agora agora' Hle Hc.
    apply (classificar_cases p agora) in Hc as (Hns & t & Ht & Hvenc).
    apply (classificar_cases p agora'). split; [exact Hns|].
    exists t. split; [exact Ht|lia].
Qed.

Lemma feeding_and_the_food_alert_witness :
  let amb := amb_teste relogio_tarde in
  let s := apos (servir cinco_refeicoes) amb (estadoInicial amb) in
  let agoraISO := relogio amb (leituras s + 1) in
  let p := ApiPet.registrarComida "comida" (relogio_tarde 6)
             (ApiPet.registrarComida "comida" (relogio_tarde 4)
                (ApiPet.registrarComida "comida" (relogio_tarde 2) tutu)) in
  comida p = 3 /\
  exists p',
    pets (apos (ApiPet.POST (Some (pedido_comida "tutu"))) amb s) !! "tutu" = Some p' /\
    (comida p < maxComida p ->
       forall agora, agora - agoraISO < 8 * msPorHora ->
         tipo (classificar p' agora) <> "comida") /\
    (maxComida p <= comida p ->
       p' = p /\
       forall agora agora', agora <= agora' ->
         tipo (classificar p agora) = "comida" ->
         tipo (classificar p' agora') = "comida").
Proof.
  intros amb s agoraISO p. split; [reflexivity|].
  apply (feeding_and_the_food_alert amb s "tutu" p).
  vm_compute. reflexivity.
Defined.

(** * The pages *)

(** ** The calendar, for every day *)

Lemma todosOsDias_iter f de n :
  Pos.iter (fun '(d, ok) => (d + 1, ok && f d)) (de, true) n
  = (de + Z.pos n, todosOsDias f de n).
Proof.
  unfold todosOsDias.
  induction n as [|n IH] using Pos.peano_ind.
  - reflexivity.
  - rewrite Pos.iter_succ, IH. simpl. f_equal. lia.
Qed.

Lemma todosOsDias_true f de n :
  todosOsDias f de n = true ->
  forall d, de <= d < de + Z.pos n -> f d = true.
Proof.
  induction n as [|n IH] using Pos.peano_ind; intros H d Hd.
  - assert (d = de) as -> by lia.
    unfold todosOsDias in H. simpl in H. exact H.
  - unfold todosOsDias in H. rewrite Pos.iter_succ, todosOsDias_iter in H.
    simpl in H. apply andb_true_iff in H as [H1 H2].
    destruct (decide (d = de + Z.pos n)) as [->|Hne]; [exact H2|].
    apply IH; [exact H1|lia].
Qed.

(** The calendar repeats every 400 years, which are 146097 days. *)
Lemma civil_periodico dia k :
  Data.civil (dia + 146097 * k)
  = (fst (fst (Data.civil dia)) + 400 * k, snd (fst (Data.civil dia)), snd (Data.civil dia)).
Proof.
  unfold Data.civil. cbv zeta. cbn [fst snd].
  replace (dia + 146097 * k + 719468) with (dia + 719468 + k * 146097) by lia.
  rewrite Z.div_add by lia.
  replace (dia + 719468 + k * 146097 - ((dia + 719468) / 146097 + k) * 146097)
    with (dia + 719468 - (dia + 719468) / 146097 * 146097) by lia.
  f_equal. f_equal. lia.
Qed.

Lemma diasDe_periodico y m d k :
  Data.diasDe (y + 400 * k) m d = Data.diasDe y m d + 146097 * k.
Proof.
  unfold Data.diasDe. cbv zeta.
  replace ((if m <=? 2 then y + 400 * k - 1 else y + 400 * k))
    with ((if m <=? 2 then y - 1 else y) + k * 400) by (destruct (m <=? 2); lia).
  rewrite Z.div_add by lia.
  generalize (if m <=? 2 then y - 1 else y). intros y'.
  replace (y' + k * 400 - (y' / 400 + k) * 400) with (y' - y' / 400 * 400) by lia.
  lia.
Qed.

(** Every day has a month in 1..12 and a day of the month in 1..31,
    checked on one period. *)
Lemma civil_periodo_ok :
  todosOsDias (fun dia =>
    let '(_, m, d) := Data.civil dia in
    (1 <=? m) && (m <=? 12) && (1 <=? d) && (d <=? 31)) 0 146097 = true.
Proof. vm_cast_no_check (eq_refl true). Qed.

Lemma civil_intervalos dia :
  1 <= snd (fst (Data.civil dia)) <= 12 /\ 1 <= snd (Data.civil dia) <= 31.
Proof.
  pose proof (Z.div_mod dia 146097 ltac:(lia)) as Hdm.
  pose proof (Z.mod_pos_bound dia 146097 ltac:(lia)) as Hb.
  assert (0 <= dia mod 146097 < 0 + Z.pos 146097) as Hr by lia.
  pose proof (todosOsDias_true _ _ _ civil_periodo_ok (dia mod 146097) Hr) as H.
  cbv beta in H.
  replace dia with (dia mod 146097 + 146097 * (dia / 146097)) by lia.
  rewrite civil_periodico. cbn [fst snd].
  destruct (Data.civil (dia mod 146097)) as [[y m] d]. cbn [fst snd].
  apply andb_true_iff in H as [H H4]. apply andb_true_iff in H as [H H3].
  apply andb_true_iff in H as [H1 H2].
  apply Z.leb_le in H1, H2, H3, H4. lia.
Qed.

Lemma getMonth_intervalo amb t : 0 <= getMonth amb t <= 11.
Proof.
  unfold getMonth, Data.MonthFromTime.
  pose proof (civil_intervalos (Data.Day (LocalTime amb t))). lia.
Qed.

(** The day before the first of a month lies in the month before, and the
    first of a month is the first of that month: checked for the twelve
    months of the 400 years of one period, [i] counting the months from
    January of year 0. *)
Lemma primeiro_do_mes_periodo_ok :
  todosOsDias (fun i =>
    let y := i / 12 in
    let m := i mod 12 + 1 in
    let '(y0, m0, d0) := Data.civil (Data.diasDe y m 1) in
    let '(y1, m1, _) := Data.civil (Data.diasDe y m 1 - 1) in
    (y0 =? y) && (m0 =? m) && (d0 =? 1) &&
    (y1 =? (if m =? 1 then y - 1 else y)) &&
    (m1 =? (if m =? 1 then 12 else m - 1))) 0 4800 = true.
Proof. vm_cast_no_check (eq_refl true). Qed.

Lemma primeiro_do_mes y m :
  1 <= m <= 12 ->
  Data.civil (Data.diasDe y m 1) = (y, m, 1) /\
  fst (Data.civil (Data.diasDe y m 1 - 1))
  = (if m =? 1 then y - 1 else y, if m =? 1 then 12 else m - 1).
Proof.
  intros Hm.
  pose proof (Z.div_mod y 400 ltac:(lia)) as Hdm.
  pose proof (Z.mod_pos_bound y 400 ltac:(lia)) as Hb.
  set (r := y mod 400) in *. set (k := y / 400) in *. clearbody r k.
  assert (0 <= r * 12 + (m - 1) < 0 + Z.pos 4800) as Hi by lia.
  pose proof (todosOsDias_true _ _ _ primeiro_do_mes_periodo_ok _ Hi) as H.
  cbv beta zeta in H.
  replace ((r * 12 + (m - 1)) / 12) with r in H
    by (apply Z.div_unique with (m - 1); lia).
  replace ((r * 12 + (m - 1)) mod 12 + 1) with m in H
    by (rewrite <- (Z.mod_unique (r * 12 + (m - 1)) 12 r (m - 1)); lia).
  replace y with (r + 400 * k) by lia.
  rewrite diasDe_periodico.
  replace (Data.diasDe r m 1 + 146097 * k - 1)
    with (Data.diasDe r m 1 - 1 + 146097 * k) by lia.
  rewrite !civil_periodico.
  destruct (Data.civil (Data.diasDe r m 1)) as [[y0 m0] d0].
  destruct (Data.civil (Data.diasDe r m 1 - 1)) as [[y1 m1] d1].
  cbn [fst snd].
  apply andb_true_iff in H as [H H5]. apply andb_true_iff in H as [H H4].
  apply andb_true_iff in H as [H H3]. apply andb_true_iff in H as [H1 H2].
  apply Z.eqb_eq in H1, H2, H3, H4, H5. subst.
  split; [reflexivity|]. destruct (m =? 1); f_equal; lia.
Qed.

(** ** The age of a pet *)

(** X13: the age that the card, the home page and the page of a pet
    compute is the number of calendar months from the month of birth to
    the current month, split into years and 0..11 months; days are not
    looked at. *)
Theorem calcularIdade_counts_calendar_months amb hoje nascimento :
  let anos := fst (PetCard.anosMeses amb hoje nascimento) in
  let meses := snd (PetCard.anosMeses amb hoje nascimento) in
  0 <= meses <= 11 /\
  12 * anos + meses
  = (12 * getFullYear amb hoje + getMonth amb hoje)
    - (12 * getFullYear amb nascimento + getMonth amb nascimento) /\
  PetCard.calcularIdade amb hoje (Some nascimento) = PetCard.texto anos meses /\
  Home.calcularIdade amb hoje (Some nascimento) = PetCard.texto anos meses /\
  (forall d, d <> "" ->
     PetPage.calcularIdade amb hoje (Some d) (Some nascimento) = PetPage.texto anos meses).
Proof.
  intros anos meses. subst anos meses.
  pose proof (getMonth_intervalo amb hoje) as Hh.
  pose proof (getMonth_intervalo amb nascimento) as Hn.
  unfold Home.calcularIdade, PetCard.calcularIdade, PetPage.calcularIdade,
    PetPage.anosMeses.
  destruct (PetCard.anosMeses amb hoje nascimento) as [a m] eqn:E. cbn [fst snd].
  unfold PetCard.anosMeses in E.
  assert (0 <= m <= 11 /\
          12 * a + m = 12 * getFullYear amb hoje + getMonth amb hoje
                       - (12 * getFullYear amb nascimento + getMonth amb nascimento))
    as [H1 H2].
  { destruct (getMonth amb hoje - getMonth amb nascimento <? 0) eqn:Hlt;
      [apply Z.ltb_lt in Hlt|apply Z.ltb_ge in Hlt]; injection E as <- <-; lia. }
  repeat split; try lia.
  intros d Hd. apply String.eqb_neq in Hd. rewrite Hd. reflexivity.
Qed.

Lemma Day_utc_offset y m d tz :
  Data.Day (Data.utc y m d 0 + tz)
  = Data.diasDe y m d + tz / Data.msPerDay.
Proof.
  unfold Data.Day, Data.utc, Data.msPerDay.
  replace (Data.diasDe y m d * 86400000 + 0 * 3600000 + tz)
    with (tz + Data.diasDe y m d * 86400000) by lia.
  rewrite Z.div_add by lia. lia.
Qed.

(** X14: a birth date on the first of a month is read as midnight UTC of
    that day, and its year and month are then taken in local time.  Seen
    during the month of birth, the age is "0 meses" where local time is
    UTC or ahead of it, and "1 mês" where local time is behind UTC (the
    birth then falls on the last day of the month before). *)
Theorem age_of_a_pet_born_on_the_first amb y m hoje d :
  1 <= m <= 12 ->
  getFullYear amb hoje = y ->
  getMonth amb hoje = m - 1 ->
  d <> "" ->
  let nascimento := Data.utc y m 1 0 in
  (0 <= LocalTZA amb nascimento < Data.msPerDay ->
     PetCard.calcularIdade amb hoje (Some nascimento) = "0 meses" /\
     PetPage.calcularIdade amb hoje (Some d) (Some nascimento) = "0 meses") /\
  (- Data.msPerDay <= LocalTZA amb nascimento < 0 ->
     PetCard.calcularIdade amb hoje (Some nascimento) = "1 mês" /\
     PetPage.calcularIdade amb hoje (Some d) (Some nascimento) = "1 mês").
Proof.
  intros Hm Hy Hmes Hd nascimento.
  apply String.eqb_neq in Hd.
  destruct (primeiro_do_mes y m Hm) as [H0 H1].
  unfold PetCard.calcularIdade, PetPage.calcularIdade, PetPage.anosMeses,
    PetCard.anosMeses. rewrite Hd, Hy, Hmes.
  unfold getFullYear, getMonth, Data.YearFromTime, Data.MonthFromTime, LocalTime.
  subst nascimento. rewrite Day_utc_offset.
  unfold Data.msPerDay. split; intros Htz.
  - replace (LocalTZA amb (Data.utc y m 1 0) / 86400000) with 0
      by (symmetry; apply Z.div_small; lia).
    rewrite Z.add_0_r, H0. cbn [fst snd].
    replace (m - 1 - (m - 1)) with 0 by lia. rewrite Z.sub_diag.
    split; reflexivity.
  - replace (LocalTZA amb (Data.utc y m 1 0) / 86400000) with (-1)
      by (apply Z.div_unique with (LocalTZA amb (Data.utc y m 1 0) + 86400000); lia).
    change (Data.diasDe y m 1 + -1) with (Data.diasDe y m 1 - 1).
    destruct (Data.civil (Data.diasDe y m 1 - 1)) as [[y1 m1] d1].
    cbn [fst snd] in *. injection H1 as -> ->.
    destruct (m =? 1) eqn:E; [apply Z.eqb_eq in E|apply Z.eqb_neq in E].
    + subst m. replace (y - (y - 1)) with 1 by lia. split; reflexivity.
    + replace (m - 1 - (m - 1 - 1)) with 1 by lia. rewrite Z.sub_diag.
      split; reflexivity.
Qed.

Example born_0301_seen_0315_sao_paulo :
  PetCard.calcularIdade amb_sao_paulo (Data.utc 2024 3 15 12) (Some (Data.utc 2024 3 1 0))
  = "1 mês" /\
  PetCard.calcularIdade (amb_teste (fun _ => 0)) (Data.utc 2024 3 15 12)
    (Some (Data.utc 2024 3 1 0))
  = "0 meses" /\
  PetCard.calcularIdade amb_sao_paulo (Data.utc 2026 11 1 12) (Some (Data.utc 2025 3 17 0))
  = "1 ano e 8 meses" /\
  PetPage.calcularIdade amb_sao_paulo (Data.utc 2026 3 20 12) (Some "2025-03-17")
    (Some (Data.utc 2025 3 17 0))
  = "1 ano, 0 meses" /\
  PetCard.calcularIdade amb_sao_paulo (Data.utc 2026 3 20 12) (Some (Data.utc 2025 3 17 0))
  = "1 ano".
Proof. repeat apply conj; vm_compute; reflexivity. Qed.

Lemma age_of_a_pet_born_on_the_first_witness :
  let nascimento := Data.utc 2024 3 1 0 in
  let hoje := Data.utc 2024 3 15 12 in
  (0 <= LocalTZA amb_sao_paulo nascimento < Data.msPerDay ->
     PetCard.calcularIdade amb_sao_paulo hoje (Some nascimento) = "0 meses" /\
     PetPage.calcularIdade amb_sao_paulo hoje (Some "2024-03-01") (Some nascimento)
       = "0 meses") /\
  (- Data.msPerDay <= LocalTZA amb_sao_paulo nascimento < 0 ->
     PetCard.calcularIdade amb_sao_paulo hoje (Some nascimento) = "1 mês" /\
     PetPage.calcularIdade amb_sao_paulo hoje (Some "2024-03-01") (Some nascimento)
       = "1 mês").
Proof.
  intros nascimento hoje.
  apply (age_of_a_pet_born_on_the_first amb_sao_paulo 2024 3 hoje "2024-03-01").
  - lia.
  - vm_compute. reflexivity.
  - vm_compute. reflexivity.
  - discriminate.
Defined.

(** ** The counters on the page of a pet *)

Lemma fmap_constante {A B} (f : A -> B) (b : B) (l : list A) :
  (forall x, x ∈ l -> f x = b) -> f <$> l = replicate (length l) b.
Proof.
  induction l as [|x l IH]; intros H; [reflexivity|].
  simpl. rewrite (H x) by constructor. f_equal.
  apply IH. intros y Hy. apply H. constructor. exact Hy.
Qed.

Lemma icones_cheios_vazios max atual :
  0 <= atual <= max ->
  PetPage.icones max atual
  = replicate (Z.to_nat atual) true ++ replicate (Z.to_nat (max - atual)) false.
Proof.
  intros H. unfold PetPage.icones.
  replace max with (atual + (max - atual)) at 1 by lia.
  rewrite seqZ_app by lia. rewrite fmap_app. f_equal.
  - rewrite (fmap_constante _ true); [rewrite length_seqZ; reflexivity|].
    intros i Hi. apply elem_of_seqZ in Hi. apply Z.ltb_lt. lia.
  - rewrite (fmap_constante _ false); [rewrite length_seqZ; reflexivity|].
    intros i Hi. apply elem_of_seqZ in Hi. apply Z.ltb_ge. lia.
Qed.

(** X15: for the record of any key in any state the server can reach,
    the page draws three feeding icons: as many "eaten" as [comida]
    counts, then the others "not-eaten". *)
Theorem food_icons_of_reachable_state amb s a p :
  alcancavel amb s ->
  pets s !! a = Some p ->
  0 <= comida p <= 3 /\
  PetPage.icones (maxComida p) (comida p)
  = replicate (Z.to_nat (comida p)) true ++ replicate (Z.to_nat (3 - comida p)) false.
Proof.
  intros [rs ->] Hp.
  assert (exists p0, pets (estadoInicial amb) !! a = Some p0 /\
                     maxComida p0 = 3 /\ comida p0 = 0) as (p0 & Hp0 & Hmax0 & Hc0).
  { assert (a ∈ dom (pets (estadoInicial amb))) as Hdom.
    { rewrite <- (historico_dom ApiStatus.chaves_iniciais amb rs).
      apply elem_of_dom. eauto. }
    cbn [estadoInicial pets] in *.
    rewrite !dom_insert_L, dom_empty_L in Hdom.
    apply elem_of_union in Hdom as [Hd|Hd]; [|apply elem_of_union in Hd as [Hd|Hd]].
    - apply elem_of_singleton in Hd as ->. exists tutu. auto.
    - apply elem_of_singleton in Hd as ->. exists noah. auto.
    - apply elem_of_empty in Hd as []. }
  destruct (historico_invariante
              (fun q => maxComida q = 3 /\ 0 <= comida q <= 3)
              ApiStatus.chaves_iniciais amb rs (estadoInicial amb) a p0)
    as (p' & Hp' & Hmax & Hb); auto.
  - intros q [Hq _]. simpl. split; [exact Hq|lia].
  - intros k t q [Hq Hbq]. unfold ApiPet.registrarComida.
    destruct (bool_decide (k = "comida") && (comida q <? maxComida q)) eqn:E;
      [|auto].
    apply andb_true_iff in E as [_ E]. apply Z.ltb_lt in E. simpl. split; [exact Hq|lia].
  - intros k t q HQ. unfold ApiPet.registrarRemedio.
    destruct (bool_decide (k = "remedio") && temRemedio q); [|exact HQ].
    destruct (ApiPet.menor (remedio q) (maxRemedio q)); exact HQ.
  - split; [exact Hmax0|lia].
  - assert (p' = p) as -> by congruence.
    split; [exact Hb|]. rewrite <- Hmax. apply icones_cheios_vazios. lia.
Qed.

Lemma food_icons_of_reachable_state_witness :
  let amb := amb_teste relogio_tarde in
  let s := apos (historico ApiStatus.chaves_iniciais
                   [PetPOST (Some (pedido_comida "tutu")); StatusGET;
                    PetPOST (Some (pedido_comida "tutu"))]) amb (estadoInicial amb) in
  let p := ApiPet.registrarComida "comida" (relogio_tarde 7)
             (ApiPet.registrarComida "comida" (relogio_tarde 2) tutu) in
  comida p = 2 /\
  0 <= comida p <= 3 /\
  PetPage.icones (maxComida p) (comida p)
  = replicate (Z.to_nat (comida p)) true ++ replicate (Z.to_nat (3 - comida p)) false.
Proof.
  intros amb s p. split; [reflexivity|].
  apply (food_icons_of_reachable_state amb s "tutu" p).
  - eexists. reflexivity.
  - vm_compute. reflexivity.
Defined.

(** ** What the home page shows of the statuses *)

Lemma campo_deResultado resultado k :
  Json.campo (prod_map id Json.deStatus <$> resultado) k = None \/
  exists st, Json.campo (prod_map id Json.deStatus <$> resultado) k
             = Some (Json.deStatus st).
Proof.
  induction resultado as [|[nome st] resto IH]; [left; reflexivity|].
  rewrite fmap_cons. cbn [prod_map fst snd id Json.campo].
  destruct (String.eqb nome k); [right; eauto|exact IH].
Qed.

(** X16: whatever GET /api/status answered, the card of each pet of the
    home page finds no [alertas] in the status it is given (the status
    objects have [tipo] and [mensagem] only), so the guard of its alert
    block is undefined and no alert is drawn; and the greeting finds no
    [usuario.nome] and falls back to "usuário".  The same holds before
    any answer has arrived. *)
Theorem home_cards_draw_no_alert chaves amb s resultado p :
  valorDe (ApiStatus.GET chaves) amb s = ApiStatus.Resp200 resultado ->
  p ∈ Home.pets ->
  let status := Some (Json.deResultado resultado) in
  PetCard.guardaAlertas (Home.statusDoPet status p) = None /\
  Home.saudacao status = Some (Json.Str "usuário") /\
  PetCard.guardaAlertas (Home.statusDoPet None p) = None /\
  Home.saudacao None = Some (Json.Str "usuário").
Proof.
  intros _ _ status. subst status.
  unfold Home.statusDoPet, Home.saudacao, Json.deResultado.
  cbn [Json.prop].
  split; [|split; [|split; reflexivity]].
  - destruct (campo_deResultado resultado (Home.id p)) as [->|[st ->]]; reflexivity.
  - destruct (campo_deResultado resultado "usuario") as [->|[st ->]]; reflexivity.
Qed.

Lemma home_cards_draw_no_alert_witness :
  let amb := amb_teste relogio_nove_horas in
  let s := apos (ApiPet.POST (Some (pedido_comida "tutu"))) amb (estadoInicial amb) in
  let resultado :=
    [("tutu", {| tipo := "comida"; mensagem := "Alerta de comida 🚨" |});
     ("noah", {| tipo := "ok"; mensagem := "Tudo certo ✅" |})] in
  let status := Some (Json.deResultado resultado) in
  let p := {| Home.id := "tutu"; Home.nome := "Tutu"; Home.raca := "Vira-lata";
              Home.genero := "Macho"; Home.dataNascimento := "2025-03-17" |} in
  PetCard.guardaAlertas (Home.statusDoPet status p) = None /\
  Home.saudacao status = Some (Json.Str "usuário") /\
  PetCard.guardaAlertas (Home.statusDoPet None p) = None /\
  Home.saudacao None = Some (Json.Str "usuário").
Proof.
  intros amb s resultado status p.
  apply (home_cards_draw_no_alert ApiStatus.chaves_iniciais amb s resultado p).
  - vm_compute. reflexivity.
  - constructor.
Defined.
